(** * Madame of the Moon: the session quota of the reading endpoint

    A shallow embedding of [main.py]: the per-session counter kept in the
    [session] collection of the document store, the two endpoints that touch
    it ([/api/activate] and [/api/read]), the draw of three cards and the
    assembly of the narrative text.

    Conventions of the model.
    - Python integers are unbounded, so counts are [Z].
    - [datetime.now(timezone.utc)] is an input of each call ([now]).
    - The process-wide generator of [random] is a tape of naturals; each
      request to it consumes one cell and reduces it into the asked range.
    - The calls on [db["session"]] are an interface ([Collection]); the
      handlers are written once over it, as the source is.  The store is
      assumed to answer every call (a connection failure is not modelled). *)

From Stdlib Require Import ZArith String Ascii List Lia Bool DecimalString.
From stdpp Require Import base decidable option list strings.
Import ListNotations.

Local Open Scope string_scope.
Local Open Scope list_scope.
Local Open Scope Z_scope.

(** ** Data model *)

Definition time := Z.

(** A document of the [session] collection.  [session_id] is the key the
    code filters on; the other fields are read with [.get] or only
    written, so each may be absent. *)
Record session_doc := {
  doc_session_id : string;
  doc_count : option Z;
  doc_created_at : option time;
  doc_updated_at : option time;
}.

#[global] Instance session_doc_eq_dec : EqDecision session_doc.
Proof. solve_decision. Defined.

(** The request bodies: one required string field, no validator. *)
Record ActivateRequest := { activate_session_id : string }.
Record ReadRequest := { read_session_id : string }.

(** The update document handed to [find_one_and_update]:
    [{"$inc": {"count": n}, "$setOnInsert": {"created_at": t}, "$set": {"updated_at": t'}}]. *)
Record update_doc := {
  inc_count : Z;
  set_on_insert_created_at : time;
  set_updated_at : time;
}.

(** ** The collection interface

    The three calls the program makes on [db["session"]].  Each takes the
    state of the store and gives back its answer and the new state.
    [find_one_and_update] stands for the call with [upsert=True] and
    [return_document=True], the only way the program uses it. *)
Class Collection (St : Type) := {
  find_one : string -> St -> option session_doc * St;
  insert_one : session_doc -> St -> St;
  find_one_and_update : string -> update_doc -> St -> option session_doc * St;
}.

(** [doc.get("count", d)] followed by [int(...)]. *)
Definition get_count (d : Z) (doc : session_doc) : Z :=
  match doc_count doc with
  | Some n => n
  | None => d
  end.

Section Counter.
Context {St : Type} `{Collection St}.

Definition get_session_count (session_id : string) (db : St) : Z * St :=
  let '(doc, db) := find_one session_id db in
  (match doc with
   | Some doc => get_count 0 doc
   | None => 0
   end, db).

Definition increment_session_count (session_id : string) (now : time) (db : St)
  : Z * St :=
  let '(result, db) :=
    find_one_and_update session_id
      {| inc_count := 1; set_on_insert_created_at := now; set_updated_at := now |}
      db in
  match result with
  | None =>
      let '(doc, db) := find_one session_id db in
      (match doc with
       | Some doc => get_count 1 doc
       | None => 1
       end, db)
  | Some result => (get_count 1 result, db)
  end.
End Counter.

(** ** The document store *)

(** Modelled from the spec: the object [db] of the module [database], which
    is not among the sources.  The spec asks of the store a point lookup
    by exact key, an insert, and an upsert with increment by exact key
    done as one operation; the three calls are given the meaning they
    have in MongoDB, whose names they bear.  A collection is the list of
    its documents in insertion order; the program declares no unique
    index, so the list may hold several documents with one [session_id],
    and a filter finds the first. *)
Definition collection := list session_doc.

Definition matches (session_id : string) (doc : session_doc) : bool :=
  bool_decide (doc_session_id doc = session_id).

Definition coll_find_one (session_id : string) (c : collection) : option session_doc :=
  List.find (matches session_id) c.

Definition coll_insert_one (doc : session_doc) (c : collection) : collection :=
  c ++ [doc].

(** [$inc] adds to the field and creates it at the increment when it is
    absent; [$set] overwrites; [$setOnInsert] is ignored on a match. *)
Definition apply_update (u : update_doc) (doc : session_doc) : session_doc :=
  {| doc_session_id := doc_session_id doc;
     doc_count := Some (get_count 0 doc + inc_count u);
     doc_created_at := doc_created_at doc;
     doc_updated_at := Some (set_updated_at u) |}.

(** The document an upsert creates: the equality fields of the filter,
    then every operator of the update. *)
Definition upserted (session_id : string) (u : update_doc) : session_doc :=
  {| doc_session_id := session_id;
     doc_count := Some (inc_count u);
     doc_created_at := Some (set_on_insert_created_at u);
     doc_updated_at := Some (set_updated_at u) |}.

Fixpoint update_first (session_id : string) (u : update_doc) (c : collection)
  : option (session_doc * collection) :=
  match c with
  | [] => None
  | doc :: c' =>
      if matches session_id doc then
        let doc' := apply_update u doc in Some (doc', doc' :: c')
      else
        match update_first session_id u c' with
        | Some (doc', c'') => Some (doc', doc :: c'')
        | None => None
        end
  end.

(** Modelled from the spec: the upsert with increment.  [reports
    session_id c] tells whether the driver hands back the document after
    the update ([true] for a driver that follows the interface; the
    source allows for drivers that answer [None]). *)
Definition coll_find_one_and_update (reports : string -> collection -> bool)
    (session_id : string) (u : update_doc) (c : collection)
  : option session_doc * collection :=
  let '(doc', c') :=
    match update_first session_id u c with
    | Some r => r
    | None => let doc := upserted session_id u in (doc, c ++ [doc])
    end in
  (if reports session_id c then Some doc' else None, c').

(** Modelled from the spec: the collection [db["session"]]. *)
Definition mongo (reports : string -> collection -> bool) : Collection collection :=
  {| find_one := fun session_id c => (coll_find_one session_id c, c);
     insert_one := coll_insert_one;
     find_one_and_update := coll_find_one_and_update reports |}.

Definition always : string -> collection -> bool := fun _ _ => true.
Definition never : string -> collection -> bool := fun _ _ => false.

(** The count stored for a session: what [get_session_count] answers. *)
Definition stored_count (session_id : string) (c : collection) : Z :=
  match coll_find_one session_id c with
  | Some doc => get_count 0 doc
  | None => 0
  end.

(** ** The generator of [random]

    [randbelow n] is the primitive under [choice] and [sample]: it takes
    the next cell of the tape and answers a number below [n]. *)
Definition rng := list nat.

Definition randbelow (n : nat) (g : rng) : nat * rng :=
  match g with
  | [] => (0%nat, [])
  | r :: g' => ((r mod n)%nat, g')
  end.

(** [random.choice(seq)] is [seq[randbelow(len(seq))]]; [None] stands for
    the [IndexError] of an empty sequence. *)
Definition random_choice {A : Type} (seq : list A) (g : rng) : option A * rng :=
  let '(i, g) := randbelow (length seq) g in (seq !! i, g).

(** The loop of [random.sample] over a copy of the population (the branch
    CPython takes for a population of at most 21 elements):
    [j = randbelow(n - i); result[i] = pool[j]; pool[j] = pool[n - i - 1]].
    [todo] counts the iterations left. *)
Fixpoint sample_loop {A : Type} (n i todo : nat) (pool : list A) (g : rng)
  : option (list A) * rng :=
  match todo with
  | O => (Some [], g)
  | S todo' =>
      let '(j, g) := randbelow (n - i) g in
      match pool !! j, pool !! (n - i - 1)%nat with
      | Some x, Some y =>
          let pool := <[j := y]> pool in
          let '(rest, g) := sample_loop n (S i) todo' pool g in
          (option_map (cons x) rest, g)
      | _, _ => (None, g)
      end
  end.

(** [random.sample(population, k)]; [None] stands for the [ValueError]
    raised when the sample is larger than the population. *)
Definition random_sample {A : Type} (population : list A) (k : nat) (g : rng)
  : option (list A) * rng :=
  let n := length population in
  if (k <=? n)%nat then sample_loop n 0 k population g else (None, g).

(** ** The deck *)

Record card := {
  name : string;
  symbol : string;
  meaning : string;
  whisper : string;
}.

#[global] Instance card_eq_dec : EqDecision card.
Proof. solve_decision. Defined.

Definition TAROT_DECK : list card := [
  {| name := "The Moon"; symbol := "🌙";
     meaning := "intuition, dreams, hidden waters";
     whisper := "Trust the tide beneath the mind." |};
  {| name := "The Star"; symbol := "✨";
     meaning := "healing, hope, luminous guidance";
     whisper := "A silver thread is guiding you home." |};
  {| name := "The Tower"; symbol := "🗼";
     meaning := "revelation, rupture, divine reset";
     whisper := "What falls was never yours to carry." |};
  {| name := "The Empress"; symbol := "🌿";
     meaning := "creation, sweetness, fertile ground";
     whisper := "What you tend will bloom." |};
  {| name := "The Magician"; symbol := "🜂";
     meaning := "will, craft, manifestation";
     whisper := "As within, so without — choose and conjure." |};
  {| name := "Death"; symbol := "🦋";
     meaning := "transmutation, ending, sacred molt";
     whisper := "Shed the husk; the wings are ready." |};
  {| name := "The Lovers"; symbol := "💫";
     meaning := "union, choice, mirrored flame";
     whisper := "What you vow to becomes you." |};
  {| name := "The Hermit"; symbol := "🕯️";
     meaning := "solitude, lantern, inner path";
     whisper := "Go inward; there is a door only you can open." |}
].

(** ** Responses

    The handlers answer Python dictionaries and lists of them; a
    dictionary is the list of its items in insertion order. *)
Inductive value :=
| VStr (s : string)
| VCards (cs : list card).

Definition pydict := list (string * value).

Fixpoint dict_set (k : string) (v : value) (d : pydict) : pydict :=
  match d with
  | [] => [(k, v)]
  | (k', v') :: d' =>
      if bool_decide (k' = k) then (k, v) :: d' else (k', v') :: dict_set k v d'
  end.

Fixpoint dict_get (k : string) (d : pydict) : option value :=
  match d with
  | [] => None
  | (k', v) :: d' => if bool_decide (k' = k) then Some v else dict_get k d'
  end.

(** [{**d, **e}]: the items of [e] are set into [d] one after the other. *)
Definition dict_merge (d e : pydict) : pydict :=
  fold_left (fun acc kv => dict_set (fst kv) (snd kv) acc) e d.

Definition keys (d : pydict) : list string := map fst d.

Inductive response :=
| RList (items : list pydict)
| RDict (d : pydict).

(** ** Strings *)

Definition nl : string := String "010" "".

(** [str(n)] for a natural number. *)
Definition str (n : nat) : string := NilEmpty.string_of_uint (Nat.to_uint n).

(** [sep.join(l)]. *)
Definition join (sep : string) (l : list string) : string := String.concat sep l.

(** [enumerate(l, start)]. *)
Fixpoint enumerate {A : Type} (start : nat) (l : list A) : list (nat * A) :=
  match l with
  | [] => []
  | x :: l' => (start, x) :: enumerate (S start) l'
  end.

(** ** The reading *)

Definition address_forms : list string := ["child of the Moon"; "soul in crossing"].

Definition hooks : list string := [
  "Return tomorrow; I will feel new vibrations.";
  "Something new is coming… I will be here between the veils."
].

Definition hint : string :=
  "It pulses behind the veil… holding a stronger destiny." +:+ nl +:+
  "A portal is opening… but it reveals itself only to those who dare to cross." +:+ nl +:+
  "The last card does not appear in public. I can reveal it ONLY inside the Portal…".

Definition preamble : string :=
  "I see threads tightening and loosening around you — a design seeking your permission."
  +:+ nl.

Definition card_line (idx : nat) (c : card) : string :=
  symbol c +:+ " Card " +:+ str idx +:+ ": " +:+ name c +:+ " — " +:+ meaning c
  +:+ ". " +:+ whisper c.

Definition CTA : string :=
  "Enter the Portal on WhatsApp to unveil the Hidden Card and receive a private ritual.".

Definition CTA_SUB : string :=
  "I can perform the lunar sweetening ritual to open your paths, but I need your permission…".

(** The text of a reading once the address form and the hook are chosen. *)
Definition narrative (addressed hook : string) (cards : list card) : string :=
  let lines := map (fun '(idx, c) => card_line idx c) (enumerate 1 cards) in
  let whisper := addressed +:+ ", hear me: " +:+ preamble in
  join nl ([whisper] ++ lines ++ [nl +:+ hint; nl +:+ hook]).

Definition build_reading (cards : list card) (g : rng) : option pydict * rng :=
  let '(addressed, g) := random_choice address_forms g in
  let '(hook, g) := random_choice hooks g in
  match addressed, hook with
  | Some addressed, Some hook =>
      let text := narrative addressed hook cards in
      let cta := [("cta", VStr CTA); ("cta_sub", VStr CTA_SUB)] in
      (Some (dict_merge [("cards", VCards cards); ("message", VStr text)] cta), g)
  | _, _ => (None, g)
  end.

Definition FINAL_WARNING : string :=
  "If you do not act now, the veil will close. What was about to be revealed may be lost for entire cycles." +:+ nl +:+
  "Only with your energetic contribution can the portal remain open.".

Definition FINAL_BLOCK : string :=
  "The Oracle has been sealed after 3 visions. To continue your journey, you must activate the full ritual through the energy exchange.".

Definition FINAL_PORTAL : string :=
  "Child of the Moon… forcing the veils or acting with malice awakens the Shadow Return — a cycle of confusion, losses, and energetic disorder.".

Definition alert (description : string) : pydict :=
  [("name", VStr "alert"); ("description", VStr description)].

Definition ACKNOWLEDGMENT : pydict :=
  [("phrase", VStr "The oracle is awakened. The first card already vibrates between the veils.");
   ("status", VStr "ready")].

(** ** The endpoints

    A handler takes the request, the time of the call, the state of the
    store and (for a reading) the generator; it gives back its answer and
    the new states.  An answer [None] stands for an exception leaving the
    handler. *)
Section Endpoints.
Context {St : Type} `{Collection St}.

(** A document the filter found has a [session_id], so it is never the
    empty dictionary and [not existing] tests for [None]. *)
Definition activate (req : ActivateRequest) (now : time) (db : St) : pydict * St :=
  let '(existing, db) := find_one (activate_session_id req) db in
  let db :=
    match existing with
    | Some _ => db
    | None =>
        insert_one {| doc_session_id := activate_session_id req;
                      doc_count := Some 0;
                      doc_created_at := Some now;
                      doc_updated_at := Some now |} db
    end in
  (ACKNOWLEDGMENT, db).

(** [read_cards] from its second statement on, [total] being known.  A
    request served next to others runs this part on the store as the
    others left it, which need not be the one [total] was read from. *)
Definition read_cards_from (total : Z) (req : ReadRequest) (now : time)
    (db : St) (g : rng) : option response * St * rng :=
  if 3 <=? total then
    (Some (RList [alert FINAL_WARNING]), db, g)
  else
    let '(current, db) := increment_session_count (read_session_id req) now db in
    if 3 <? current then
      (Some (RList [alert FINAL_BLOCK]), db, g)
    else
      let '(picks, g) := random_sample TAROT_DECK 3 g in
      match picks with
      | Some picks =>
          let '(payload, g) := build_reading picks g in
          (option_map RDict payload, db, g)
      | None => (None, db, g)
      end.

Definition read_cards (req : ReadRequest) (now : time) (db : St) (g : rng)
  : option response * St * rng :=
  let '(total, db) := get_session_count (read_session_id req) db in
  read_cards_from total req now db g.
End Endpoints.

(** ** Runs of calls

    What a client can do to the store: a sequence of calls to the two
    endpoints, served one after the other. *)
Inductive call :=
| Activate (req : ActivateRequest) (now : time)
| Read (req : ReadRequest) (now : time).

Section Runs.
Context {St : Type} `{Collection St}.

Definition serve (c : call) (db : St) (g : rng) : option response * St * rng :=
  match c with
  | Activate req now => let '(r, db) := activate req now db in (Some (RDict r), db, g)
  | Read req now => read_cards req now db g
  end.

Fixpoint run (cs : list call) (db : St) (g : rng)
  : list (option response) * St * rng :=
  match cs with
  | [] => ([], db, g)
  | c :: cs' =>
      let '(r, db, g) := serve c db g in
      let '(rs, db, g) := run cs' db g in
      (r :: rs, db, g)
  end.

(** [increment_session_count] called once per element of [nows]. *)
Fixpoint increments (session_id : string) (nows : list time) (db : St)
  : list Z * St :=
  match nows with
  | [] => ([], db)
  | now :: nows' =>
      let '(n, db) := increment_session_count session_id now db in
      let '(ns, db) := increments session_id nows' db in
      (n :: ns, db)
  end.
End Runs.

(** Whether some document of the collection bears the identifier. *)
Definition has_record (session_id : string) (c : collection) : bool :=
  existsb (matches session_id) c.

Definition unseen (session_id : string) (c : collection) : Prop :=
  has_record session_id c = false.

(** The store after a run. *)
Definition store_of {St : Type} (r : list (option response) * St * rng) : St := r.1.2.

(** [needle in hay] on strings. *)
Definition occurs_in (needle hay : string) : bool :=
  match String.index 0 needle hay with
  | Some _ => true
  | None => false
  end.

(** A store that keeps nothing: every lookup answers [answer] and the
    increment-and-fetch answers nothing.  It exercises the fallback of
    [increment_session_count] on the answers a lookup can give. *)
Definition forgetful (answer : option session_doc) : Collection unit :=
  {| find_one := fun _ db => (answer, db);
     insert_one := fun _ db => db;
     find_one_and_update := fun _ _ db => (None, db) |}.

(** The layout of the text of a reading of three cards, following the
    words of the specification: the address line with the preamble, one
    line per card, the teaser of three lines, the closing line; the
    blocks are set apart by an empty line. *)
Definition spec_narrative (addressed hook : string) (c1 c2 c3 : card) : string :=
  addressed +:+ ", hear me: I see threads tightening and loosening around you — a design seeking your permission." +:+ nl +:+
  nl +:+
  symbol c1 +:+ " Card 1: " +:+ name c1 +:+ " — " +:+ meaning c1 +:+ ". " +:+ whisper c1 +:+ nl +:+
  symbol c2 +:+ " Card 2: " +:+ name c2 +:+ " — " +:+ meaning c2 +:+ ". " +:+ whisper c2 +:+ nl +:+
  symbol c3 +:+ " Card 3: " +:+ name c3 +:+ " — " +:+ meaning c3 +:+ ". " +:+ whisper c3 +:+ nl +:+
  nl +:+
  "It pulses behind the veil… holding a stronger destiny." +:+ nl +:+
  "A portal is opening… but it reveals itself only to those who dare to cross." +:+ nl +:+
  "The last card does not appear in public. I can reveal it ONLY inside the Portal…" +:+ nl +:+
  nl +:+
  hook.

(** The payload of a reading. *)
Definition reading_payload (cards : list card) (text : string) : pydict :=
  [("cards", VCards cards); ("message", VStr text);
   ("cta", VStr "Enter the Portal on WhatsApp to unveil the Hidden Card and receive a private ritual.");
   ("cta_sub", VStr "I can perform the lunar sweetening ritual to open your paths, but I need your permission…")].

(** Neither call-to-action string occurs in any text made of cards of
    [deck], as a test. *)
Definition cta_free (deck : list card) : bool :=
  forallb (fun c1 => forallb (fun c2 => forallb (fun c3 =>
    forallb (fun addressed => forallb (fun hook =>
      let text := narrative addressed hook [c1; c2; c3] in
      negb (occurs_in CTA text) && negb (occurs_in CTA_SUB text))
    hooks) address_forms) deck) deck) deck.

(** ** Accounting of readings *)

(** The session a call is made for. *)
Definition call_session (c : call) : string :=
  match c with
  | Activate req _ => activate_session_id req
  | Read req _ => read_session_id req
  end.

(** An answer that is an object rather than a list of alerts. *)
Definition is_object (r : option response) : bool :=
  match r with
  | Some (RDict _) => true
  | _ => false
  end.

(** The number of reading requests of a session that were answered by a
    reading, in a run and its answers. *)
Fixpoint readings_served (session_id : string) (cs : list call)
    (answers : list (option response)) : nat :=
  match cs, answers with
  | c :: cs', a :: answers' =>
      ((match c with
        | Read req _ =>
            if bool_decide (read_session_id req = session_id) && is_object a
            then 1 else 0
        | Activate _ _ => 0
        end) + readings_served session_id cs' answers')%nat
  | _, _ => O
  end.

Section Stale.
Context {St : Type} `{Collection St}.

End Stale.

(** A document as the endpoints write them: a count from 0 to 3 and
    both timestamps. *)
Definition well_formed (doc : session_doc) : bool :=
  match doc_count doc, doc_created_at doc, doc_updated_at doc with
  | Some n, Some _, Some _ => (0 <=? n) && (n <=? 3)
  | _, _, _ => false
  end.

(** The lines of the cards of a reading, each closed by a line break. *)
Fixpoint card_block (idx : nat) (cards : list card) : string :=
  match cards with
  | [] => ""
  | c :: cards' => card_line idx c +:+ nl +:+ card_block (S idx) cards'
  end.

(** ** The diagnostic endpoint

    [test_database] looks at the object [db] and at two variables of the
    environment.  What it can observe of [db]: whether it is [None],
    what reading its attribute [name] gives, and what
    [list_collection_names()] gives.  The message of an exception is the
    sequence of its characters, so that [str(e)[:50]] is its first fifty
    characters. *)
Definition message := list N.

Inductive attribute :=
| Absent
| Present (v : string)
| Failing (e : message).

Inductive listing :=
| Listed (names : list string)
| Refused (e : message).

Record database := {
  db_name : attribute;
  list_collection_names : listing;
}.

Record environ := {
  DATABASE_URL : option string;
  DATABASE_NAME : option string;
}.

(** The truth value of what [os.getenv] answers: a variable that is not
    set, or set to the empty string, is false. *)
Definition truthy (v : option string) : bool :=
  match v with
  | Some (String _ _) => true
  | _ => false
  end.

(** A text of the response: a literal, or a literal followed by the
    characters of a message. *)
Inductive text :=
| Lit (s : string)
| Fmt (s : string) (shown : message).

Record diagnostics := {
  backend : string;
  database_field : text;
  database_url : option string;
  database_name : option string;
  connection_status : string;
  collections : list string;
}.

Definition set_database (v : text) (r : diagnostics) : diagnostics :=
  {| backend := backend r; database_field := v; database_url := database_url r;
     database_name := database_name r; connection_status := connection_status r;
     collections := collections r |}.

Definition set_database_url (v : option string) (r : diagnostics) : diagnostics :=
  {| backend := backend r; database_field := database_field r; database_url := v;
     database_name := database_name r; connection_status := connection_status r;
     collections := collections r |}.

Definition set_database_name (v : option string) (r : diagnostics) : diagnostics :=
  {| backend := backend r; database_field := database_field r;
     database_url := database_url r; database_name := v;
     connection_status := connection_status r; collections := collections r |}.

Definition set_connection_status (v : string) (r : diagnostics) : diagnostics :=
  {| backend := backend r; database_field := database_field r;
     database_url := database_url r; database_name := database_name r;
     connection_status := v; collections := collections r |}.

Definition set_collections (v : list string) (r : diagnostics) : diagnostics :=
  {| backend := backend r; database_field := database_field r;
     database_url := database_url r; database_name := database_name r;
     connection_status := connection_status r; collections := v |}.

(** The body of the outer [try]: [inl] is the response when the body ends,
    [inr] the response as it stands and the exception when one leaves
    the body.  Only reading [db.name] can raise there; the exception of
    the listing is caught inside. *)
Definition test_database_try (db : option database) (response : diagnostics)
  : diagnostics + diagnostics * message :=
  match db with
  | Some db =>
      let response := set_database (Lit "✅ Available") response in
      let response := set_database_url (Some "✅ Configured") response in
      match db_name db with
      | Failing e => inr (response, e)
      | attr =>
          let response :=
            set_database_name
              (Some (match attr with Present v => v | _ => "✅ Connected" end))
              response in
          let response := set_connection_status "Connected" response in
          match list_collection_names db with
          | Listed names =>
              let response := set_collections (take 10 names) response in
              inl (set_database (Lit "✅ Connected & Working") response)
          | Refused e =>
              inl (set_database (Fmt "⚠️  Connected but Error: " (take 50 e)) response)
          end
      end
  | None => inl (set_database (Lit "⚠️  Available but not initialized") response)
  end.

Definition test_database (db : option database) (env : environ) : diagnostics :=
  let response :=
    {| backend := "✅ Running";
       database_field := Lit "❌ Not Available";
       database_url := None;
       database_name := None;
       connection_status := "Not Connected";
       collections := [] |} in
  let response :=
    match test_database_try db response with
    | inl response => response
    | inr (response, e) => set_database (Fmt "❌ Error: " (take 50 e)) response
    end in
  let response :=
    set_database_url
      (Some (if truthy (DATABASE_URL env) then "✅ Set" else "❌ Not Set")) response in
  let response :=
    set_database_name
      (Some (if truthy (DATABASE_NAME env) then "✅ Set" else "❌ Not Set")) response in
  response.

(** * Properties *)

(** ** The store *)

Lemma matches_true session_id doc :
  matches session_id doc = true <-> doc_session_id doc = session_id.
Proof. unfold matches. apply bool_decide_eq_true. Qed.

Lemma matches_false session_id doc :
  matches session_id doc = false <-> doc_session_id doc <> session_id.
Proof. unfold matches. apply bool_decide_eq_false. Qed.

Lemma unseen_find_one session_id c :
  unseen session_id c <-> coll_find_one session_id c = None.
Proof.
  unfold unseen, has_record, coll_find_one. induction c as [|doc c IH]; simpl.
  - split; reflexivity.
  - destruct (matches session_id doc); simpl; [split; discriminate | exact IH].
Qed.

Lemma has_record_find_one session_id c :
  has_record session_id c = true <-> exists doc, coll_find_one session_id c = Some doc.
Proof.
  unfold has_record, coll_find_one. induction c as [|doc c IH]; simpl.
  - split; [discriminate | intros [doc Hd]; discriminate Hd].
  - destruct (matches session_id doc); simpl; [|exact IH].
    split; [eexists; reflexivity | reflexivity].
Qed.

Lemma find_one_app session_id c doc :
  coll_find_one session_id (c ++ [doc]) =
  match coll_find_one session_id c with
  | Some d => Some d
  | None => if matches session_id doc then Some doc else None
  end.
Proof.
  unfold coll_find_one. induction c as [|d c IH]; simpl.
  - reflexivity.
  - destruct (matches session_id d); [reflexivity | exact IH].
Qed.

Lemma update_first_None session_id u c :
  coll_find_one session_id c = None -> update_first session_id u c = None.
Proof.
  unfold coll_find_one. induction c as [|d c IH]; simpl; [reflexivity|].
  destruct (matches session_id d); [discriminate|].
  intros Hf. rewrite (IH Hf). reflexivity.
Qed.

Lemma update_first_Some session_id u c doc :
  coll_find_one session_id c = Some doc ->
  exists c', update_first session_id u c = Some (apply_update u doc, c')
    /\ coll_find_one session_id c' = Some (apply_update u doc)
    /\ forall other, other <> session_id ->
         coll_find_one other c' = coll_find_one other c.
Proof.
  unfold coll_find_one. induction c as [|d c IH]; simpl; [discriminate|].
  destruct (matches session_id d) eqn:E.
  - intros [= ->]. eexists. split; [reflexivity|]. simpl.
    apply matches_true in E. split.
    + replace (matches session_id (apply_update u doc)) with true; [reflexivity|].
      symmetry. apply matches_true. exact E.
    + intros other Hne.
      assert (matches other doc = false) as Hd
        by (apply matches_false; congruence).
      assert (matches other (apply_update u doc) = false) as Hd'
        by (apply matches_false; simpl; congruence).
      rewrite Hd, Hd'. reflexivity.
  - intros Hf. destruct (IH Hf) as (c' & Hu & Hs & Ho). rewrite Hu.
    eexists. split; [reflexivity|]. simpl. rewrite E. split; [exact Hs|].
    intros other Hne. rewrite (Ho other Hne). reflexivity.
Qed.

Section Mongo.
Variable reports : string -> collection -> bool.
#[local] Hint Extern 0 (Collection _) =>
  exact (mongo reports) : typeclass_instances.

Lemma get_session_count_mongo session_id c :
  get_session_count session_id c = (stored_count session_id c, c).
Proof. reflexivity. Qed.

(** On this store the call increments by one whatever the driver
    reports: the fallback reads the document just written. *)
Lemma increment_session_count_mongo session_id now c :
  exists c',
    increment_session_count session_id now c = (stored_count session_id c + 1, c')
    /\ stored_count session_id c' = stored_count session_id c + 1
    /\ forall other, other <> session_id ->
         coll_find_one other c' = coll_find_one other c.
Proof.
  unfold increment_session_count, stored_count. simpl.
  unfold coll_find_one_and_update.
  destruct (coll_find_one session_id c) as [doc|] eqn:Hf.
  - destruct (update_first_Some session_id
      {| inc_count := 1; set_on_insert_created_at := now; set_updated_at := now |}
      c doc Hf) as (c' & Hu & Hs & Ho).
    rewrite Hu. exists c'. rewrite Hs.
    destruct (reports session_id c); simpl; auto.
  - rewrite (update_first_None _ _ _ Hf).
    set (d := upserted session_id _).
    exists (c ++ [d]). rewrite find_one_app, Hf.
    assert (matches session_id d = true) as Hm by (apply matches_true; reflexivity).
    rewrite Hm.
    split; [destruct (reports session_id c); reflexivity|].
    split; [reflexivity|].
    intros other Hne. rewrite find_one_app.
    assert (matches other d = false) as Hd
      by (apply matches_false; simpl; congruence).
    rewrite Hd. destruct (coll_find_one other c); reflexivity.
Qed.
End Mongo.

(** ** The counter on the store *)

Section Quota.
Variable reports : string -> collection -> bool.
#[local] Hint Extern 0 (Collection _) =>
  exact (mongo reports) : typeclass_instances.

(** C9: reading the count of a session changes nothing in the store,
    and a session with no stored record has count 0. *)
Theorem get_session_count_pure_unseen session_id db :
  snd (get_session_count session_id db) = db /\
  (unseen session_id db -> fst (get_session_count session_id db) = 0).
Proof.
  split; [reflexivity|]. intros Hu. apply unseen_find_one in Hu.
  simpl. rewrite Hu. reflexivity.
Qed.

(** C1: when the stored count of the session is 3 or more, the reading
    endpoint answers the one-element list holding the warning, and
    leaves the store (and the generator) as they were. *)
Theorem read_cards_quota_reached req now db g :
  3 <= fst (get_session_count (read_session_id req) db) ->
  read_cards req now db g =
    (Some (RList [[("name", VStr "alert"); ("description", VStr FINAL_WARNING)]]),
     db, g).
Proof.
  intros Hq. unfold read_cards. rewrite get_session_count_mongo in *. simpl in Hq.
  unfold read_cards_from.
  destruct (Z.leb_spec 3 (stored_count (read_session_id req) db)); [reflexivity | lia].
Qed.

(** C4: on a session with no record the first increment creates the
    record at count 1; every increment adds exactly one to the stored
    count and returns the new value; so a run of increments returns
    1, 2, ..., n. *)
Theorem increment_session_count_sequence session_id db :
  unseen session_id db ->
  (forall now,
     increment_session_count session_id now db =
       (1, db ++ [{| doc_session_id := session_id; doc_count := Some 1;
                     doc_created_at := Some now; doc_updated_at := Some now |}]))
  /\ (forall now db',
        fst (increment_session_count session_id now db')
          = stored_count session_id db' + 1
        /\ stored_count session_id (snd (increment_session_count session_id now db'))
          = stored_count session_id db' + 1)
  /\ (forall nows,
        fst (increments session_id nows db)
          = map Z.of_nat (seq 1 (length nows))).
Proof.
  intros Hu. apply unseen_find_one in Hu. split; [|split].
  - intros now. unfold increment_session_count. simpl.
    unfold coll_find_one_and_update.
    rewrite (update_first_None _ _ _ Hu).
    destruct (reports session_id db); simpl; [reflexivity|].
    rewrite find_one_app, Hu.
    unfold matches. simpl. rewrite bool_decide_eq_true_2 by reflexivity.
    reflexivity.
  - intros now db'.
    destruct (increment_session_count_mongo reports session_id now db')
      as (c' & -> & Hs & _).
    simpl. auto.
  - assert (forall nows c,
              fst (increments session_id nows c)
              = map (fun k => stored_count session_id c + Z.of_nat k)
                  (seq 1 (length nows))) as Hgen.
    { induction nows as [|now nows IH]; intros c; simpl; [reflexivity|].
      destruct (increment_session_count_mongo reports session_id now c)
        as (c' & -> & Hs & _).
      specialize (IH c').
      destruct (increments session_id nows c') as [ns c''].
      simpl in *. f_equal. rewrite IH, Hs, <- (seq_shift (length nows) 1), map_map.
      apply map_ext. intros k. lia. }
    intros nows. rewrite Hgen. unfold stored_count. rewrite Hu.
    apply map_ext. intros k. lia.
Qed.
End Quota.

Lemma get_session_count_pure_unseen_witness :
  fst (@get_session_count _ (mongo always) "s-1"
         [{| doc_session_id := "s-2"; doc_count := Some 2;
             doc_created_at := Some 10; doc_updated_at := Some 12 |}]) = 0.
Proof.
  apply (proj2 (get_session_count_pure_unseen always "s-1" _)).
  reflexivity.
Defined.

Lemma read_cards_quota_reached_witness :
  @read_cards _ (mongo always) {| read_session_id := "s-1" |} 50
    [{| doc_session_id := "s-1"; doc_count := Some 3;
        doc_created_at := Some 10; doc_updated_at := Some 12 |}] [4; 2; 6; 1; 0]%nat
  = (Some (RList [[("name", VStr "alert"); ("description", VStr FINAL_WARNING)]]),
     [{| doc_session_id := "s-1"; doc_count := Some 3;
         doc_created_at := Some 10; doc_updated_at := Some 12 |}], [4; 2; 6; 1; 0]%nat).
Proof.
  apply (read_cards_quota_reached always). vm_compute. discriminate.
Defined.

Lemma increment_session_count_sequence_witness :
  fst (@increments _ (mongo never) "s-1" [100; 101; 102; 103] []) = [1; 2; 3; 4].
Proof.
  apply (proj2 (proj2 (increment_session_count_sequence never "s-1" [] eq_refl))
           [100; 101; 102; 103]).
Defined.

Section Fallback.
Context {St : Type} `{Collection St}.

(** C5: when the increment-and-fetch answers nothing, the count is read
    back from the store; a missing record, or a record without a count,
    counts as 1.  A count is returned in each case. *)
Theorem increment_session_count_fallback session_id now db db1 :
  find_one_and_update session_id
    {| inc_count := 1; set_on_insert_created_at := now; set_updated_at := now |} db
    = (None, db1) ->
  increment_session_count session_id now db =
    (match fst (find_one session_id db1) with
     | Some doc => match doc_count doc with Some n => n | None => 1 end
     | None => 1
     end,
     snd (find_one session_id db1)).
Proof.
  intros Hnone. unfold increment_session_count. rewrite Hnone.
  destruct (find_one session_id db1) as [[doc|] db2]; reflexivity.
Qed.
End Fallback.

Lemma increment_session_count_fallback_witness :
  @increment_session_count _ (mongo never) "s-1" 7
    [{| doc_session_id := "s-1"; doc_count := Some 2;
        doc_created_at := Some 1; doc_updated_at := Some 1 |}]
  = (3, [{| doc_session_id := "s-1"; doc_count := Some 3;
            doc_created_at := Some 1; doc_updated_at := Some 7 |}]).
Proof.
  apply (@increment_session_count_fallback _ (mongo never) "s-1" 7
           [{| doc_session_id := "s-1"; doc_count := Some 2;
               doc_created_at := Some 1; doc_updated_at := Some 1 |}]
           [{| doc_session_id := "s-1"; doc_count := Some 3;
               doc_created_at := Some 1; doc_updated_at := Some 7 |}]).
  reflexivity.
Defined.

(** ** The draw *)

Lemma randbelow_lt n g : (0 < n)%nat -> ((randbelow n g).1 < n)%nat.
Proof.
  intros Hn. destruct g as [|r g]; simpl; [exact Hn|].
  apply Nat.mod_upper_bound. lia.
Qed.

Lemma random_choice_spec {A : Type} (seq : list A) (g : rng) :
  seq <> [] ->
  exists x g', random_choice seq g = (Some x, g') /\ x ∈ seq.
Proof.
  intros Hne. unfold random_choice.
  assert (0 < length seq)%nat as Hlen by (destruct seq; [contradiction | simpl; lia]).
  pose proof (randbelow_lt (length seq) g Hlen) as Hi.
  destruct (randbelow (length seq) g) as [i g']. simpl in Hi.
  destruct (lookup_lt_is_Some_2 seq i Hi) as [x Hx].
  exists x, g'. rewrite Hx. split; [reflexivity|].
  apply list_elem_of_lookup. exists i. exact Hx.
Qed.

(** Overwriting one member of a duplicate-free list by a fresh value keeps
    it duplicate-free and drops the member. *)
Lemma replace_member {A : Type} (Q : list A) (j : nat) (x y : A) :
  NoDup Q -> Q !! j = Some x -> y ∉ Q ->
  NoDup (<[j:=y]> Q)
  /\ (x ∉ <[j:=y]> Q)
  /\ (forall z, z ∈ <[j:=y]> Q -> (z ∈ Q) \/ (z = y)).
Proof.
  intros Hnd Hj Hy.
  apply list_elem_of_split_length in Hj as (Q1 & Q2 & -> & ->).
  replace (length Q1) with (length Q1 + 0)%nat by lia.
  rewrite insert_app_r. simpl.
  apply NoDup_app in Hnd as (H1 & H2 & H3).
  apply NoDup_cons in H3 as (H3 & H4).
  split; [|split].
  - apply NoDup_app. split; [exact H1|]. split.
    + intros z Hz Hin. apply elem_of_cons in Hin as [->|Hin].
      * apply Hy. apply elem_of_app. left. exact Hz.
      * apply (H2 z Hz). apply elem_of_cons. right. exact Hin.
    + apply NoDup_cons. split; [|exact H4].
      intros Hin. apply Hy. apply elem_of_app. right. apply elem_of_cons. right. exact Hin.
  - intros Hin. apply elem_of_app in Hin as [Hin|Hin].
    + apply (H2 x Hin). apply elem_of_cons. left. reflexivity.
    + apply elem_of_cons in Hin as [->|Hin]; [|contradiction].
      apply Hy. apply elem_of_app. right. apply elem_of_cons. left. reflexivity.
  - intros z Hin. apply elem_of_app in Hin as [Hin|Hin].
    + left. apply elem_of_app. left. exact Hin.
    + apply elem_of_cons in Hin as [->|Hin]; [right; reflexivity|].
      left. apply elem_of_app. right. apply elem_of_cons. right. exact Hin.
Qed.

(** One turn of the loop: the drawn entry leaves the live part of the
    pool, which stays duplicate-free. *)
Lemma swap_remove {A : Type} (pool : list A) (m j : nat) (x y : A) :
  (j < S m)%nat -> NoDup (take (S m) pool) ->
  pool !! j = Some x -> pool !! m = Some y ->
  NoDup (take m (<[j:=y]> pool))
  /\ (x ∉ take m (<[j:=y]> pool))
  /\ (forall z, z ∈ take m (<[j:=y]> pool) -> z ∈ take (S m) pool).
Proof.
  intros Hj Hnd Hx Hy.
  rewrite (take_S_r pool m y Hy) in *.
  apply NoDup_app in Hnd as (Hnd & Hfresh & _).
  assert (y ∉ take m pool) as Hny.
  { intros Hin. apply (Hfresh y Hin). apply list_elem_of_singleton. reflexivity. }
  destruct (decide (j = m)) as [->|Hne].
  - rewrite take_insert_ge by lia.
    assert (x = y) as -> by congruence.
    split; [exact Hnd|]. split; [exact Hny|].
    intros z Hz. apply elem_of_app. left. exact Hz.
  - rewrite take_insert_lt by lia.
    assert (take m pool !! j = Some x) as Hq
      by (rewrite lookup_take_lt by lia; exact Hx).
    destruct (replace_member (take m pool) j x y Hnd Hq Hny) as (H1 & H2 & H3).
    split; [exact H1|]. split; [exact H2|].
    intros z Hz. apply elem_of_app. destruct (H3 z Hz) as [Hin| ->].
    + left. exact Hin.
    + right. apply list_elem_of_singleton. reflexivity.
Qed.

Lemma sample_loop_spec {A : Type} (n : nat) :
  forall (todo i : nat) (pool : list A) (g : rng),
    (todo <= n - i)%nat -> (n - i <= length pool)%nat ->
    NoDup (take (n - i) pool) ->
    exists res g',
      sample_loop n i todo pool g = (Some res, g')
      /\ length res = todo /\ NoDup res
      /\ forall z, z ∈ res -> z ∈ take (n - i) pool.
Proof.
  induction todo as [|todo IH]; intros i pool g Htodo Hlen Hnd.
  - exists [], g. split; [reflexivity|]. split; [reflexivity|].
    split; [constructor|]. intros z Hz. inversion Hz.
  - simpl. destruct (n - i)%nat as [|m] eqn:Hm; [lia|].
    pose proof (randbelow_lt (S m) g ltac:(lia)) as Hj.
    destruct (randbelow (S m) g) as [j g1]. simpl in Hj.
    destruct (lookup_lt_is_Some_2 pool j ltac:(lia)) as [x Hx].
    destruct (lookup_lt_is_Some_2 pool m ltac:(lia)) as [y Hy].
    replace (S m - 1)%nat with m by lia.
    rewrite Hx, Hy.
    destruct (swap_remove pool m j x y Hj Hnd Hx Hy) as (H1 & H2 & H3).
    assert (n - S i = m)%nat as Hm' by lia.
    destruct (IH (S i) (<[j:=y]> pool) g1) as (res & g' & Hs & Hl & Hn & Hin).
    + lia.
    + rewrite length_insert. lia.
    + rewrite Hm'. exact H1.
    + rewrite Hs. exists (x :: res), g'. simpl.
      split; [reflexivity|]. split; [lia|]. rewrite Hm' in Hin. split.
      * apply NoDup_cons. split; [|exact Hn]. intros Hx'. apply H2, Hin, Hx'.
      * intros z Hz. apply elem_of_cons in Hz as [->|Hz].
        -- eapply elem_of_take. exists j. split; [exact Hx | lia].
        -- apply H3, Hin, Hz.
Qed.

(** A sample no larger than a duplicate-free population is a list of [k]
    distinct members of it. *)
Lemma random_sample_spec {A : Type} (population : list A) (k : nat) (g : rng) :
  (k <= length population)%nat -> NoDup population ->
  exists res g',
    random_sample population k g = (Some res, g')
    /\ length res = k /\ NoDup res /\ forall z, z ∈ res -> z ∈ population.
Proof.
  intros Hk Hnd. unfold random_sample.
  destruct (Nat.leb_spec k (length population)) as [_|Hlt]; [|lia].
  destruct (sample_loop_spec (length population) k 0 population g)
    as (res & g' & Hs & Hl & Hn & Hin).
  - lia.
  - lia.
  - rewrite Nat.sub_0_r, firstn_all. exact Hnd.
  - exists res, g'. split; [exact Hs|]. split; [exact Hl|]. split; [exact Hn|].
    intros z Hz. specialize (Hin z Hz).
    rewrite Nat.sub_0_r, firstn_all in Hin. exact Hin.
Qed.

Lemma TAROT_DECK_names_NoDup : NoDup (map name TAROT_DECK).
Proof.
  unfold TAROT_DECK. simpl.
  repeat (apply NoDup_cons_2;
          [rewrite list_elem_of_In; simpl; intuition discriminate|]).
  apply NoDup_nil_2.
Qed.

Lemma TAROT_DECK_NoDup : NoDup TAROT_DECK.
Proof. eapply NoDup_fmap_1. exact TAROT_DECK_names_NoDup. Qed.

Lemma NoDup_map_members {A B : Type} (f : A -> B) (deck picks : list A) :
  NoDup (map f deck) -> NoDup picks -> (forall c, c ∈ picks -> c ∈ deck) ->
  NoDup (map f picks).
Proof.
  intros Hdeck Hpicks Hsub. apply NoDup_fmap_2_strong; [|exact Hpicks].
  intros x y Hx Hy Hxy. apply Hsub in Hx, Hy.
  apply list_elem_of_lookup in Hx as [i Hi], Hy as [j Hj].
  assert (map f deck !! i = Some (f x)) as Hi'
    by (change (map f deck) with (f <$> deck); rewrite list_lookup_fmap, Hi; reflexivity).
  assert (map f deck !! j = Some (f x)) as Hj'
    by (change (map f deck) with (f <$> deck); rewrite list_lookup_fmap, Hj; simpl; congruence).
  assert (i = j) as -> by exact (NoDup_lookup _ i j _ Hdeck Hi' Hj').
  congruence.
Qed.

(** ** The text *)

Lemma append_assoc (a b c : string) : (a +:+ b) +:+ c = a +:+ (b +:+ c).
Proof.
  induction a as [|ch a IH]; [reflexivity|].
  change (String ch ((a +:+ b) +:+ c) = String ch (a +:+ (b +:+ c))).
  rewrite IH. reflexivity.
Qed.

Lemma narrative_layout addressed hook c1 c2 c3 :
  narrative addressed hook [c1; c2; c3] = spec_narrative addressed hook c1 c2 c3.
Proof.
  unfold narrative, spec_narrative, join, card_line, preamble, hint.
  cbn [enumerate map app String.concat].
  rewrite !append_assoc. reflexivity.
Qed.

Lemma build_reading_spec cards g :
  exists addressed hook g',
    addressed ∈ address_forms /\ hook ∈ hooks
    /\ build_reading cards g
       = (Some (reading_payload cards (narrative addressed hook cards)), g').
Proof.
  unfold build_reading.
  destruct (random_choice_spec address_forms g ltac:(discriminate))
    as (addressed & g1 & -> & Ha).
  destruct (random_choice_spec hooks g1 ltac:(discriminate))
    as (hook & g2 & -> & Hh).
  exists addressed, hook, g2. split; [exact Ha|]. split; [exact Hh|]. reflexivity.
Qed.

(** Each address form and each closing line is chosen on some tape. *)
Lemma build_reading_choices cards addressed hook :
  addressed ∈ address_forms -> hook ∈ hooks ->
  exists g g',
    build_reading cards g
    = (Some (reading_payload cards (narrative addressed hook cards)), g').
Proof.
  unfold address_forms, hooks. intros Ha Hh.
  apply elem_of_cons in Ha as [->|Ha]; [|apply list_elem_of_singleton in Ha as ->];
    (apply elem_of_cons in Hh as [->|Hh]; [|apply list_elem_of_singleton in Hh as ->]).
  - exists [0; 0]%nat, []. reflexivity.
  - exists [0; 1]%nat, []. reflexivity.
  - exists [1; 0]%nat, []. reflexivity.
  - exists [1; 1]%nat, []. reflexivity.
Qed.

Lemma cta_free_TAROT_DECK : cta_free TAROT_DECK = true.
Proof. vm_compute. reflexivity. Qed.

Lemma cta_free_spec deck c1 c2 c3 addressed hook :
  cta_free deck = true ->
  c1 ∈ deck -> c2 ∈ deck -> c3 ∈ deck ->
  addressed ∈ address_forms -> hook ∈ hooks ->
  occurs_in CTA (narrative addressed hook [c1; c2; c3]) = false
  /\ occurs_in CTA_SUB (narrative addressed hook [c1; c2; c3]) = false.
Proof.
  unfold cta_free. intros Hfree H1 H2 H3 Ha Hh.
  apply list_elem_of_In in H1, H2, H3.
  apply list_elem_of_In in Ha. apply list_elem_of_In in Hh.
  rewrite forallb_forall in Hfree. specialize (Hfree c1 H1).
  rewrite forallb_forall in Hfree. specialize (Hfree c2 H2).
  rewrite forallb_forall in Hfree. specialize (Hfree c3 H3).
  rewrite forallb_forall in Hfree. specialize (Hfree addressed Ha).
  rewrite forallb_forall in Hfree. specialize (Hfree hook Hh).
  cbv zeta in Hfree. apply andb_true_iff in Hfree as [Hc Hs].
  apply negb_true_iff in Hc, Hs. split; assumption.
Qed.

(** ** The reading endpoint *)

Section Reading.
Context {St : Type} `{Collection St}.

Lemma read_cards_from_reading total req now db g :
  total < 3 ->
  fst (increment_session_count (read_session_id req) now db) <= 3 ->
  exists picks addressed hook g',
    read_cards_from total req now db g
    = (Some (RDict (reading_payload picks (narrative addressed hook picks))),
       snd (increment_session_count (read_session_id req) now db), g')
    /\ length picks = 3%nat /\ NoDup picks
    /\ (forall c, c ∈ picks -> c ∈ TAROT_DECK)
    /\ addressed ∈ address_forms /\ hook ∈ hooks.
Proof.
  intros Htotal Hcurrent. unfold read_cards_from.
  destruct (Z.leb_spec 3 total) as [Hge|_]; [lia|].
  destruct (increment_session_count (read_session_id req) now db) as [current db1].
  simpl in Hcurrent |- *.
  destruct (Z.ltb_spec 3 current) as [Hgt|_]; [lia|].
  destruct (random_sample_spec TAROT_DECK 3 g ltac:(simpl; lia) TAROT_DECK_NoDup)
    as (picks & g1 & -> & Hlen & Hnd & Hsub).
  destruct (build_reading_spec picks g1) as (addressed & hook & g2 & Ha & Hh & ->).
  exists picks, addressed, hook, g2. simpl. auto 10.
Qed.

(** C6: a request that passes the check and whose increment gives at
    most 3 is answered by one object with the fields [cards], [message],
    [cta] and [cta_sub]; [cards] holds three entries of the deck of
    eight, no two of them the same. *)
Theorem read_cards_under_quota req now db g :
  fst (get_session_count (read_session_id req) db) < 3 ->
  fst (increment_session_count (read_session_id req) now
         (snd (get_session_count (read_session_id req) db))) <= 3 ->
  exists d picks g',
    read_cards req now db g
    = (Some (RDict d),
       snd (increment_session_count (read_session_id req) now
              (snd (get_session_count (read_session_id req) db))), g')
    /\ keys d = ["cards"; "message"; "cta"; "cta_sub"]
    /\ dict_get "cards" d = Some (VCards picks)
    /\ length TAROT_DECK = 8%nat
    /\ length picks = 3%nat
    /\ NoDup picks
    /\ (forall c, c ∈ picks -> c ∈ TAROT_DECK)
    /\ NoDup (map name picks).
Proof.
  intros Htotal Hcurrent. unfold read_cards.
  destruct (get_session_count (read_session_id req) db) as [total db1].
  simpl in Htotal, Hcurrent |- *.
  destruct (read_cards_from_reading total req now db1 g Htotal Hcurrent)
    as (picks & addressed & hook & g' & -> & Hlen & Hnd & Hsub & _).
  exists (reading_payload picks (narrative addressed hook picks)), picks, g'.
  split; [reflexivity|]. split; [reflexivity|]. split; [reflexivity|].
  split; [reflexivity|]. split; [exact Hlen|]. split; [exact Hnd|].
  split; [exact Hsub|].
  exact (NoDup_map_members name TAROT_DECK picks TAROT_DECK_names_NoDup Hnd Hsub).
Qed.

(** C3: a request that passed the check (on the store [db0] it saw) and
    whose increment, on the store [db] it then meets, gives more than 3 is
    answered by the one-element list holding the sealed message; nothing
    is drawn, the generator is left as it was. *)
Theorem read_cards_sealed req now db0 db g :
  fst (get_session_count (read_session_id req) db0) < 3 ->
  3 < fst (increment_session_count (read_session_id req) now db) ->
  read_cards_from (fst (get_session_count (read_session_id req) db0)) req now db g
  = (Some (RList [[("name", VStr "alert"); ("description", VStr FINAL_BLOCK)]]),
     snd (increment_session_count (read_session_id req) now db), g).
Proof.
  intros Htotal Hcurrent. unfold read_cards_from.
  destruct (Z.leb_spec 3 (fst (get_session_count (read_session_id req) db0)));
    [lia|].
  destruct (increment_session_count (read_session_id req) now db) as [current db1].
  simpl in Hcurrent |- *.
  destruct (Z.ltb_spec 3 current); [reflexivity | lia].
Qed.
End Reading.

(** C7: the text of a reading of three cards is laid out as the
    specification says, whatever the generator chooses; each address form
    and each closing line can be chosen; the two call-to-action strings
    are fields of their own and occur nowhere in the text of a reading of
    cards of the deck. *)
Theorem build_reading_narrative (c1 c2 c3 : card) :
  (forall g, exists addressed hook g',
      addressed ∈ ["child of the Moon"; "soul in crossing"]
      /\ hook ∈ ["Return tomorrow; I will feel new vibrations.";
                 "Something new is coming… I will be here between the veils."]
      /\ build_reading [c1; c2; c3] g
         = (Some (reading_payload [c1; c2; c3]
                    (spec_narrative addressed hook c1 c2 c3)), g'))
  /\ (forall addressed hook,
        addressed ∈ ["child of the Moon"; "soul in crossing"] ->
        hook ∈ ["Return tomorrow; I will feel new vibrations.";
                "Something new is coming… I will be here between the veils."] ->
        (exists g g',
            build_reading [c1; c2; c3] g
            = (Some (reading_payload [c1; c2; c3]
                       (spec_narrative addressed hook c1 c2 c3)), g'))
        /\ (c1 ∈ TAROT_DECK -> c2 ∈ TAROT_DECK -> c3 ∈ TAROT_DECK ->
            occurs_in CTA (spec_narrative addressed hook c1 c2 c3) = false
            /\ occurs_in CTA_SUB (spec_narrative addressed hook c1 c2 c3) = false)).
Proof.
  split.
  - intros g.
    destruct (build_reading_spec [c1; c2; c3] g) as (addressed & hook & g' & Ha & Hh & Hb).
    exists addressed, hook, g'. rewrite <- narrative_layout. auto.
  - intros addressed hook Ha Hh. rewrite <- narrative_layout. split.
    + exact (build_reading_choices [c1; c2; c3] addressed hook Ha Hh).
    + intros H1 H2 H3.
      exact (cta_free_spec TAROT_DECK c1 c2 c3 addressed hook
               cta_free_TAROT_DECK H1 H2 H3 Ha Hh).
Qed.

Lemma read_cards_under_quota_witness :
  exists d picks g',
    @read_cards _ (mongo always) {| read_session_id := "s-1" |} 50 [] [3; 4; 5; 1; 0]%nat
    = (Some (RDict d),
       [{| doc_session_id := "s-1"; doc_count := Some 1;
           doc_created_at := Some 50; doc_updated_at := Some 50 |}], g')
    /\ keys d = ["cards"; "message"; "cta"; "cta_sub"]
    /\ dict_get "cards" d = Some (VCards picks)
    /\ length TAROT_DECK = 8%nat
    /\ length picks = 3%nat
    /\ NoDup picks
    /\ (forall c, c ∈ picks -> c ∈ TAROT_DECK)
    /\ NoDup (map name picks).
Proof.
  apply (@read_cards_under_quota _ (mongo always) {| read_session_id := "s-1" |} 50
           [] [3; 4; 5; 1; 0]%nat).
  - vm_compute. reflexivity.
  - vm_compute. discriminate.
Defined.

(** Between the check of a request and its increment another request has
    brought the count from 2 to 3. *)
Lemma read_cards_sealed_witness :
  @read_cards_from _ (mongo always) 2 {| read_session_id := "s-1" |} 60
    [{| doc_session_id := "s-1"; doc_count := Some 3;
        doc_created_at := Some 10; doc_updated_at := Some 55 |}] [3; 4; 5; 1; 0]%nat
  = (Some (RList [[("name", VStr "alert"); ("description", VStr FINAL_BLOCK)]]),
     [{| doc_session_id := "s-1"; doc_count := Some 4;
         doc_created_at := Some 10; doc_updated_at := Some 60 |}], [3; 4; 5; 1; 0]%nat).
Proof.
  apply (@read_cards_sealed _ (mongo always) {| read_session_id := "s-1" |} 60
           [{| doc_session_id := "s-1"; doc_count := Some 2;
               doc_created_at := Some 10; doc_updated_at := Some 40 |}]
           [{| doc_session_id := "s-1"; doc_count := Some 3;
               doc_created_at := Some 10; doc_updated_at := Some 55 |}]
           [3; 4; 5; 1; 0]%nat).
  - vm_compute. reflexivity.
  - vm_compute. reflexivity.
Defined.

Lemma build_reading_narrative_witness :
  (exists g g',
      build_reading
        [{| name := "The Moon"; symbol := "🌙";
            meaning := "intuition, dreams, hidden waters";
            whisper := "Trust the tide beneath the mind." |};
         {| name := "Death"; symbol := "🦋";
            meaning := "transmutation, ending, sacred molt";
            whisper := "Shed the husk; the wings are ready." |};
         {| name := "The Star"; symbol := "✨";
            meaning := "healing, hope, luminous guidance";
            whisper := "A silver thread is guiding you home." |}] g
      = (Some (reading_payload
                 [{| name := "The Moon"; symbol := "🌙";
                     meaning := "intuition, dreams, hidden waters";
                     whisper := "Trust the tide beneath the mind." |};
                  {| name := "Death"; symbol := "🦋";
                     meaning := "transmutation, ending, sacred molt";
                     whisper := "Shed the husk; the wings are ready." |};
                  {| name := "The Star"; symbol := "✨";
                     meaning := "healing, hope, luminous guidance";
                     whisper := "A silver thread is guiding you home." |}]
                 (spec_narrative "soul in crossing"
                    "Return tomorrow; I will feel new vibrations."
                    {| name := "The Moon"; symbol := "🌙";
                       meaning := "intuition, dreams, hidden waters";
                       whisper := "Trust the tide beneath the mind." |}
                    {| name := "Death"; symbol := "🦋";
                       meaning := "transmutation, ending, sacred molt";
                       whisper := "Shed the husk; the wings are ready." |}
                    {| name := "The Star"; symbol := "✨";
                       meaning := "healing, hope, luminous guidance";
                       whisper := "A silver thread is guiding you home." |})), g'))
  /\ occurs_in CTA
       (spec_narrative "soul in crossing"
          "Return tomorrow; I will feel new vibrations."
          {| name := "The Moon"; symbol := "🌙";
             meaning := "intuition, dreams, hidden waters";
             whisper := "Trust the tide beneath the mind." |}
          {| name := "Death"; symbol := "🦋";
             meaning := "transmutation, ending, sacred molt";
             whisper := "Shed the husk; the wings are ready." |}
          {| name := "The Star"; symbol := "✨";
             meaning := "healing, hope, luminous guidance";
             whisper := "A silver thread is guiding you home." |}) = false.
Proof.
  destruct (proj2 (build_reading_narrative
              {| name := "The Moon"; symbol := "🌙";
                 meaning := "intuition, dreams, hidden waters";
                 whisper := "Trust the tide beneath the mind." |}
              {| name := "Death"; symbol := "🦋";
                 meaning := "transmutation, ending, sacred molt";
                 whisper := "Shed the husk; the wings are ready." |}
              {| name := "The Star"; symbol := "✨";
                 meaning := "healing, hope, luminous guidance";
                 whisper := "A silver thread is guiding you home." |})
            "soul in crossing" "Return tomorrow; I will feel new vibrations.")
    as [Hchoice Hfree]; [repeat constructor | repeat constructor |].
  split; [exact Hchoice|].
  apply Hfree; repeat constructor.
Defined.

(** ** The endpoints on the store, one call after the other *)

Section Sequential.
Variable reports : string -> collection -> bool.
#[local] Hint Extern 0 (Collection _) =>
  exact (mongo reports) : typeclass_instances.

Lemma activate_mongo req now db :
  activate req now db =
    (ACKNOWLEDGMENT,
     if has_record (activate_session_id req) db then db
     else db ++ [{| doc_session_id := activate_session_id req;
                    doc_count := Some 0;
                    doc_created_at := Some now;
                    doc_updated_at := Some now |}]).
Proof.
  unfold activate. simpl.
  destruct (has_record (activate_session_id req) db) eqn:Hr.
  - apply has_record_find_one in Hr as [doc ->]. reflexivity.
  - apply unseen_find_one in Hr. rewrite Hr. reflexivity.
Qed.

Lemma stored_count_activate req now db other :
  stored_count other (snd (activate req now db)) = stored_count other db.
Proof.
  rewrite activate_mongo. simpl.
  destruct (has_record (activate_session_id req) db) eqn:Hr; [reflexivity|].
  unfold stored_count. rewrite find_one_app.
  destruct (coll_find_one other db) as [doc|] eqn:Hf; [reflexivity|].
  destruct (matches other _); reflexivity.
Qed.

Lemma stored_count_increment session_id now db other :
  stored_count other (snd (increment_session_count session_id now db)) =
    if bool_decide (session_id = other) then stored_count other db + 1
    else stored_count other db.
Proof.
  destruct (increment_session_count_mongo reports session_id now db)
    as (c' & -> & Hs & Ho). simpl.
  destruct (bool_decide_reflect (session_id = other)) as [<-|Hne]; [exact Hs|].
  unfold stored_count. rewrite Ho by congruence. reflexivity.
Qed.

Lemma read_cards_warning req now db g :
  3 <= stored_count (read_session_id req) db ->
  read_cards req now db g = (Some (RList [alert FINAL_WARNING]), db, g).
Proof.
  intros Hq. unfold read_cards. rewrite get_session_count_mongo.
  unfold read_cards_from.
  destruct (Z.leb_spec 3 (stored_count (read_session_id req) db)); [reflexivity | lia].
Qed.

Lemma read_cards_serves req now db g :
  stored_count (read_session_id req) db < 3 ->
  exists d g',
    read_cards req now db g
    = (Some (RDict d), snd (increment_session_count (read_session_id req) now db), g').
Proof.
  intros Hq. unfold read_cards. rewrite get_session_count_mongo.
  destruct (read_cards_from_reading (stored_count (read_session_id req) db)
              req now db g Hq) as (picks & addressed & hook & g' & -> & _).
  - destruct (increment_session_count_mongo reports (read_session_id req) now db)
      as (c' & -> & _). simpl. lia.
  - eexists _, g'. reflexivity.
Qed.

(** What a call does to the count of a session: nothing, or one more
    when the call is a reading for that session below the quota. *)
Lemma serve_count c db g session_id :
  stored_count session_id (serve c db g).1.2 =
    match c with
    | Activate _ _ => stored_count session_id db
    | Read req _ =>
        if bool_decide (read_session_id req = session_id)
           && (stored_count session_id db <? 3)
        then stored_count session_id db + 1
        else stored_count session_id db
    end.
Proof.
  destruct c as [req now|req now]; unfold serve.
  - pose proof (stored_count_activate req now db session_id) as Ha.
    destruct (activate req now db) as [r db']. exact Ha.
  - destruct (Z.ltb_spec (stored_count (read_session_id req) db) 3) as [Hlt|Hge].
    + destruct (read_cards_serves req now db g Hlt) as (d & g' & ->). simpl.
      rewrite stored_count_increment.
      destruct (bool_decide_reflect (read_session_id req = session_id)) as [<-|Hne];
        simpl; [|reflexivity].
      destruct (Z.ltb_spec (stored_count (read_session_id req) db) 3); [reflexivity | lia].
    + rewrite (read_cards_warning req now db g Hge). simpl.
      destruct (bool_decide_reflect (read_session_id req = session_id)) as [<-|Hne];
        simpl; [|reflexivity].
      destruct (Z.ltb_spec (stored_count (read_session_id req) db) 3); [lia | reflexivity].
Qed.

Lemma run_count cs : forall db g session_id,
  stored_count session_id db <= stored_count session_id (store_of (run cs db g))
  /\ (stored_count session_id db <= 3 ->
      stored_count session_id (store_of (run cs db g)) <= 3).
Proof.
  unfold store_of.
  induction cs as [|c cs IH]; intros db g session_id; simpl; [lia|].
  pose proof (serve_count c db g session_id) as Hstep.
  destruct (serve c db g) as [[r db1] g1]. simpl in Hstep.
  specialize (IH db1 g1 session_id).
  destruct (run cs db1 g1) as [[rs db2] g2]. simpl in IH |- *.
  assert (stored_count session_id db <= stored_count session_id db1
          /\ (stored_count session_id db <= 3 -> stored_count session_id db1 <= 3))
    as [Hmono Hcap].
  { rewrite Hstep. destruct c as [req now|req now]; [lia|].
    destruct (bool_decide (read_session_id req = session_id)); simpl; [|lia].
    destruct (Z.ltb_spec (stored_count session_id db) 3); lia. }
  lia.
Qed.

Lemma run_sealed req nows : forall db g,
  stored_count (read_session_id req) db = 3 ->
  run (map (Read req) nows) db g =
    (map (fun _ => Some (RList [alert FINAL_WARNING])) nows, db, g).
Proof.
  induction nows as [|now nows IH]; intros db g Hq; cbn [run map serve];
    [reflexivity|].
  rewrite (read_cards_warning req now db g) by lia.
  rewrite (IH db g Hq). reflexivity.
Qed.

(** Three readings from count 0: each is served and the count ends at 3. *)
Lemma run_three_readings req now1 now2 now3 db g :
  stored_count (read_session_id req) db = 0 ->
  exists d1 d2 d3 db' g',
    run [Read req now1; Read req now2; Read req now3] db g
    = ([Some (RDict d1); Some (RDict d2); Some (RDict d3)], db', g')
    /\ stored_count (read_session_id req) db' = 3.
Proof.
  intros H0. cbn [run serve].
  destruct (read_cards_serves req now1 db g ltac:(lia)) as (d1 & g1 & ->).
  pose proof (stored_count_increment (read_session_id req) now1 db (read_session_id req)) as H1.
  rewrite bool_decide_eq_true_2 in H1 by reflexivity.
  set (db1 := snd (increment_session_count (read_session_id req) now1 db)) in *.
  destruct (read_cards_serves req now2 db1 g1 ltac:(lia)) as (d2 & g2 & ->).
  pose proof (stored_count_increment (read_session_id req) now2 db1 (read_session_id req)) as H2.
  rewrite bool_decide_eq_true_2 in H2 by reflexivity.
  set (db2 := snd (increment_session_count (read_session_id req) now2 db1)) in *.
  destruct (read_cards_serves req now3 db2 g2 ltac:(lia)) as (d3 & g3 & ->).
  pose proof (stored_count_increment (read_session_id req) now3 db2 (read_session_id req)) as H3.
  rewrite bool_decide_eq_true_2 in H3 by reflexivity.
  eexists d1, d2, d3, _, g3. split; [reflexivity|]. lia.
Qed.

Lemma run_activations req nows : forall db g,
  stored_count (activate_session_id req)
    (store_of (run (map (Activate req) nows) db g))
  = stored_count (activate_session_id req) db.
Proof.
  unfold store_of.
  induction nows as [|now nows IH]; intros db g; cbn [run map serve];
    [reflexivity|].
  pose proof (stored_count_activate req now db (activate_session_id req)) as Ha.
  destruct (activate req now db) as [r db1]. simpl in Ha.
  specialize (IH db1 g).
  destruct (run (map (Activate req) nows) db1 g) as [[rs db2] g2].
  simpl in IH |- *. lia.
Qed.
End Sequential.

Section Sessions.
Variable reports : string -> collection -> bool.
#[local] Hint Extern 0 (Collection _) =>
  exact (mongo reports) : typeclass_instances.

(** C8: activation always answers the same acknowledgment; on a session
    with no record it appends the record with count 0 and both
    timestamps; on a session with a record it leaves the store as it is;
    it changes the count of no session, activating twice is activating
    once, and any run of activations of a session with no record leaves
    its count at 0. *)
Theorem activate_idempotent req now db :
  fst (activate req now db)
  = [("phrase", VStr "The oracle is awakened. The first card already vibrates between the veils.");
     ("status", VStr "ready")]
  /\ (unseen (activate_session_id req) db ->
      snd (activate req now db)
      = db ++ [{| doc_session_id := activate_session_id req; doc_count := Some 0;
                  doc_created_at := Some now; doc_updated_at := Some now |}])
  /\ (has_record (activate_session_id req) db = true ->
      snd (activate req now db) = db)
  /\ (forall other,
        fst (get_session_count other (snd (activate req now db)))
        = fst (get_session_count other db))
  /\ (forall now',
        snd (activate req now' (snd (activate req now db)))
        = snd (activate req now db))
  /\ (unseen (activate_session_id req) db ->
      forall nows g,
        fst (get_session_count (activate_session_id req)
               (store_of (run (map (Activate req) nows) db g))) = 0).
Proof.
  split; [rewrite activate_mongo; reflexivity|].
  split; [intros Hu; rewrite activate_mongo; unfold unseen in Hu; rewrite Hu; reflexivity|].
  split; [intros Hr; rewrite activate_mongo, Hr; reflexivity|].
  split; [intros other; rewrite !get_session_count_mongo;
          exact (stored_count_activate reports req now db other)|].
  split.
  - intros now'. rewrite !activate_mongo. simpl.
    destruct (has_record (activate_session_id req) db) eqn:Hr.
    + rewrite Hr. reflexivity.
    + replace (has_record (activate_session_id req) (db ++ _)) with true; [reflexivity|].
      symmetry. unfold has_record. rewrite existsb_app. simpl.
      unfold matches at 2. simpl. rewrite bool_decide_eq_true_2 by reflexivity.
      apply orb_true_iff. right. reflexivity.
  - intros Hu nows g. rewrite get_session_count_mongo. simpl.
    rewrite (run_activations reports req nows db g).
    apply unseen_find_one in Hu. unfold stored_count. rewrite Hu. reflexivity.
Qed.

(** C2: the count of a session is left alone by an activation, and a
    reading leaves the store alone or does the one increment of its
    session, which adds one to that count and touches no other; so the
    count never decreases over a run of calls, never passes 3 once at
    most 3, reaches 3 with the third reading served from 0, and from then
    on every reading is answered by the warning with the store left as it
    is. *)
Theorem session_count_monotone_capped session_id db :
  (forall req now,
      fst (get_session_count session_id (snd (activate req now db)))
      = fst (get_session_count session_id db))
  /\ (forall req now g,
        (read_cards req now db g).1.2 = db
        \/ (fst (get_session_count (read_session_id req) db) < 3
            /\ (read_cards req now db g).1.2
               = snd (increment_session_count (read_session_id req) now db)))
  /\ (forall other now,
        fst (get_session_count session_id
               (snd (increment_session_count other now db)))
        = if bool_decide (other = session_id)
          then fst (get_session_count session_id db) + 1
          else fst (get_session_count session_id db))
  /\ (forall cs g,
        fst (get_session_count session_id db)
        <= fst (get_session_count session_id (store_of (run cs db g))))
  /\ (fst (get_session_count session_id db) <= 3 ->
      forall cs g,
        fst (get_session_count session_id (store_of (run cs db g))) <= 3)
  /\ (fst (get_session_count session_id db) = 0 ->
      forall now1 now2 now3 g,
      exists d1 d2 d3 db' g',
        run [Read {| read_session_id := session_id |} now1;
             Read {| read_session_id := session_id |} now2;
             Read {| read_session_id := session_id |} now3] db g
        = ([Some (RDict d1); Some (RDict d2); Some (RDict d3)], db', g')
        /\ fst (get_session_count session_id db') = 3)
  /\ (fst (get_session_count session_id db) = 3 ->
      forall nows g,
        run (map (Read {| read_session_id := session_id |}) nows) db g
        = (map (fun _ =>
                  Some (RList [[("name", VStr "alert");
                                ("description", VStr FINAL_WARNING)]])) nows,
           db, g)).
Proof.
  split; [intros req now; rewrite !get_session_count_mongo;
          exact (stored_count_activate reports req now db session_id)|].
  split.
  { intros req now g. rewrite get_session_count_mongo. simpl.
    destruct (Z.ltb_spec (stored_count (read_session_id req) db) 3) as [Hlt|Hge].
    - right. split; [exact Hlt|].
      destruct (read_cards_serves reports req now db g Hlt) as (d & g' & ->).
      reflexivity.
    - left. rewrite (read_cards_warning reports req now db g Hge). reflexivity. }
  split; [intros other now; rewrite !get_session_count_mongo;
          exact (stored_count_increment reports other now db session_id)|].
  split; [intros cs g; rewrite !get_session_count_mongo;
          exact (proj1 (run_count reports cs db g session_id))|].
  split; [intros Hq cs g; rewrite !get_session_count_mongo in *;
          exact (proj2 (run_count reports cs db g session_id) Hq)|].
  split.
  - intros H0 now1 now2 now3 g. rewrite get_session_count_mongo in H0.
    destruct (run_three_readings reports {| read_session_id := session_id |}
                now1 now2 now3 db g H0) as (d1 & d2 & d3 & db' & g' & Hr & H3).
    exists d1, d2, d3, db', g'. rewrite get_session_count_mongo. auto.
  - intros H3 nows g. rewrite get_session_count_mongo in H3.
    exact (run_sealed reports {| read_session_id := session_id |} nows db g H3).
Qed.

(** C10: no content of [session_id] is refused.  Whatever the string,
    the empty one included, an activation leaves a record under it and a
    reading is answered; the readings asked under the empty identifier
    draw on one quota, so the fourth of them is answered by the warning
    whoever asks. *)
Theorem session_id_not_validated now db g :
  (forall session_id,
      has_record session_id
        (snd (activate {| activate_session_id := session_id |} now db)) = true
      /\ exists r db' g',
           read_cards {| read_session_id := session_id |} now db g
           = (Some r, db', g'))
  /\ has_record "" (snd (activate {| activate_session_id := "" |} now db)) = true
  /\ (unseen "" db ->
      snd (activate {| activate_session_id := "" |} now db)
      = db ++ [{| doc_session_id := ""; doc_count := Some 0;
                  doc_created_at := Some now; doc_updated_at := Some now |}])
  /\ (fst (get_session_count "" db) = 0 ->
      forall now1 now2 now3 now4,
      exists d1 d2 d3 db' g',
        run [Read {| read_session_id := "" |} now1;
             Read {| read_session_id := "" |} now2;
             Read {| read_session_id := "" |} now3;
             Read {| read_session_id := "" |} now4] db g
        = ([Some (RDict d1); Some (RDict d2); Some (RDict d3);
            Some (RList [[("name", VStr "alert");
                          ("description", VStr FINAL_WARNING)]])], db', g')
        /\ fst (get_session_count "" db') = 3).
Proof.
  assert (forall session_id,
             has_record session_id
               (snd (activate {| activate_session_id := session_id |} now db)) = true)
    as Hact.
  { intros session_id. rewrite activate_mongo. simpl.
    destruct (has_record session_id db) eqn:Hr; [exact Hr|].
    unfold has_record. rewrite existsb_app. simpl.
    unfold matches at 2. simpl. rewrite bool_decide_eq_true_2 by reflexivity.
    apply orb_true_iff. right. reflexivity. }
  split.
  { intros session_id. split; [apply Hact|].
    destruct (Z.ltb_spec (stored_count session_id db) 3) as [Hlt|Hge].
    - destruct (read_cards_serves reports {| read_session_id := session_id |}
                  now db g Hlt) as (d & g' & ->).
      eexists _, _, _. reflexivity.
    - rewrite (read_cards_warning reports {| read_session_id := session_id |}
                 now db g Hge).
      eexists _, _, _. reflexivity. }
  split; [apply Hact|].
  split.
  { intros Hu. rewrite activate_mongo. simpl. unfold unseen in Hu. rewrite Hu.
    reflexivity. }
  intros H0 now1 now2 now3 now4. rewrite get_session_count_mongo in H0.
  simpl in H0.
  destruct (run_three_readings reports {| read_session_id := "" |}
              now1 now2 now3 db g H0) as (d1 & d2 & d3 & db' & g' & Hr & H3).
  exists d1, d2, d3, db', g'. rewrite get_session_count_mongo. split; [|exact H3].
  cbn [run serve] in Hr |- *.
  destruct (read_cards {| read_session_id := "" |} now1 db g) as [[r1 db1] g1].
  destruct (read_cards {| read_session_id := "" |} now2 db1 g1) as [[r2 db2] g2].
  destruct (read_cards {| read_session_id := "" |} now3 db2 g2) as [[r3 db3] g3].
  injection Hr as -> -> -> -> ->.
  rewrite (read_cards_warning reports {| read_session_id := "" |} now4 db' g')
    by (rewrite H3; lia).
  reflexivity.
Qed.
End Sessions.

Lemma activate_idempotent_witness :
  snd (@activate _ (mongo always) {| activate_session_id := "s-1" |} 5 [])
  = [{| doc_session_id := "s-1"; doc_count := Some 0;
        doc_created_at := Some 5; doc_updated_at := Some 5 |}]
  /\ snd (@activate _ (mongo always) {| activate_session_id := "s-1" |} 9
            [{| doc_session_id := "s-1"; doc_count := Some 2;
                doc_created_at := Some 5; doc_updated_at := Some 7 |}])
     = [{| doc_session_id := "s-1"; doc_count := Some 2;
           doc_created_at := Some 5; doc_updated_at := Some 7 |}]
  /\ fst (@get_session_count _ (mongo always) "s-1"
            (store_of (@run _ (mongo always)
                         (map (Activate {| activate_session_id := "s-1" |}) [6; 7; 8])
                         [] []))) = 0.
Proof.
  pose proof (activate_idempotent always {| activate_session_id := "s-1" |} 5 [])
    as (_ & Hnew & _ & _ & _ & Hrun).
  pose proof (activate_idempotent always {| activate_session_id := "s-1" |} 9
                [{| doc_session_id := "s-1"; doc_count := Some 2;
                    doc_created_at := Some 5; doc_updated_at := Some 7 |}])
    as (_ & _ & Hold & _).
  split; [apply Hnew; reflexivity|].
  split; [apply Hold; reflexivity|].
  apply (Hrun eq_refl [6; 7; 8] []).
Defined.

Lemma session_count_monotone_capped_witness :
  fst (@get_session_count _ (mongo always) "s-1"
         (store_of (@run _ (mongo always)
                      [Activate {| activate_session_id := "s-1" |} 1;
                       Read {| read_session_id := "s-1" |} 2;
                       Read {| read_session_id := "s-2" |} 3;
                       Read {| read_session_id := "s-1" |} 4;
                       Read {| read_session_id := "s-1" |} 5;
                       Read {| read_session_id := "s-1" |} 6;
                       Read {| read_session_id := "s-1" |} 7]
                      [] [5; 3; 0; 1; 1]%nat))) <= 3
  /\ (exists d1 d2 d3 db' g',
        @run _ (mongo always)
          [Read {| read_session_id := "s-1" |} 2;
           Read {| read_session_id := "s-1" |} 4;
           Read {| read_session_id := "s-1" |} 5] [] [5; 3; 0; 1; 1]%nat
        = ([Some (RDict d1); Some (RDict d2); Some (RDict d3)], db', g')
        /\ fst (@get_session_count _ (mongo always) "s-1" db') = 3)
  /\ @run _ (mongo always)
       (map (Read {| read_session_id := "s-1" |}) [6; 7])
       [{| doc_session_id := "s-1"; doc_count := Some 3;
           doc_created_at := Some 2; doc_updated_at := Some 5 |}] [4; 4]%nat
     = ([Some (RList [[("name", VStr "alert"); ("description", VStr FINAL_WARNING)]]);
         Some (RList [[("name", VStr "alert"); ("description", VStr FINAL_WARNING)]])],
        [{| doc_session_id := "s-1"; doc_count := Some 3;
            doc_created_at := Some 2; doc_updated_at := Some 5 |}], [4; 4]%nat).
Proof.
  pose proof (session_count_monotone_capped always "s-1" [])
    as (_ & _ & _ & _ & Hcap & Hthree & _).
  pose proof (session_count_monotone_capped always "s-1"
                [{| doc_session_id := "s-1"; doc_count := Some 3;
                    doc_created_at := Some 2; doc_updated_at := Some 5 |}])
    as (_ & _ & _ & _ & _ & _ & Hsealed).
  split; [apply Hcap; vm_compute; discriminate|].
  split; [apply Hthree; reflexivity|].
  apply (Hsealed eq_refl [6; 7] [4; 4]%nat).
Defined.

Lemma session_id_not_validated_witness :
  snd (@activate _ (mongo always) {| activate_session_id := "" |} 5 [])
  = [{| doc_session_id := ""; doc_count := Some 0;
        doc_created_at := Some 5; doc_updated_at := Some 5 |}]
  /\ exists d1 d2 d3 db' g',
       @run _ (mongo always)
         [Read {| read_session_id := "" |} 6;
          Read {| read_session_id := "" |} 7;
          Read {| read_session_id := "" |} 8;
          Read {| read_session_id := "" |} 9] [] [5; 3; 0; 1; 1]%nat
       = ([Some (RDict d1); Some (RDict d2); Some (RDict d3);
           Some (RList [[("name", VStr "alert");
                         ("description", VStr FINAL_WARNING)]])], db', g')
       /\ fst (@get_session_count _ (mongo always) "" db') = 3.
Proof.
  pose proof (session_id_not_validated always 5 [] [5; 3; 0; 1; 1]%nat)
    as (_ & _ & Hnew & Hquota).
  split; [apply Hnew; reflexivity|].
  pose proof (session_id_not_validated always 6 [] [5; 3; 0; 1; 1]%nat)
    as (_ & _ & _ & Hq).
  apply (Hq eq_refl 6 7 8 9).
Defined.

(** ** Examples *)

(** A race on a session at count 2: two requests read the count before
    either increments.  The first is served and brings the count to 3,
    the second finds 4 and is answered by the sealed message. *)
Example race_reaches_sealed :
  let db0 := [{| doc_session_id := "s-1"; doc_count := Some 2;
                 doc_created_at := Some 10; doc_updated_at := Some 40 |}] in
  let req := {| read_session_id := "s-1" |} in
  let total := fst (@get_session_count _ (mongo always) "s-1" db0) in
  let '(r1, db1, g1) := @read_cards_from _ (mongo always) total req 50 db0 [3; 4; 5; 1; 0]%nat in
  let '(r2, db2, g2) := @read_cards_from _ (mongo always) total req 51 db1 g1 in
  (exists d, r1 = Some (RDict d))
  /\ r2 = Some (RList [alert FINAL_BLOCK])
  /\ stored_count "s-1" db2 = 4.
Proof. vm_compute. split; [eexists; reflexivity|]. split; reflexivity. Qed.

(** The fallback of the increment on a store that kept nothing, and on a
    record without a count. *)
Example fallback_no_record :
  @increment_session_count _ (forgetful None) "s-1" 7 tt = (1, tt).
Proof. reflexivity. Qed.

Example fallback_no_count :
  @increment_session_count _
    (forgetful (Some {| doc_session_id := "s-1"; doc_count := None;
                        doc_created_at := Some 1; doc_updated_at := Some 1 |}))
    "s-1" 7 tt = (1, tt).
Proof. reflexivity. Qed.

Example fallback_reads_back :
  @increment_session_count _ (mongo never) "s-1" 7 [] =
    (1, [{| doc_session_id := "s-1"; doc_count := Some 1;
            doc_created_at := Some 7; doc_updated_at := Some 7 |}]).
Proof. reflexivity. Qed.

(** A draw and its text. *)
Example draw_of_three :
  option_map (map name) (fst (random_sample TAROT_DECK 3 [0; 0; 0]%nat))
  = Some ["The Moon"; "The Hermit"; "The Lovers"].
Proof. reflexivity. Qed.

Example sample_too_large :
  random_sample [1; 2; 3] 4 [0; 0; 0; 0]%nat = (None, [0; 0; 0; 0]%nat).
Proof. reflexivity. Qed.

(** ** The shape of the store *)

Lemma update_first_shape session_id u c doc' c' :
  update_first session_id u c = Some (doc', c') ->
  map doc_session_id c' = map doc_session_id c
  /\ (exists doc, coll_find_one session_id c = Some doc /\ doc' = apply_update u doc)
  /\ (forall P : session_doc -> Prop, Forall P c -> P doc' -> Forall P c').
Proof.
  revert doc' c'. unfold coll_find_one.
  induction c as [|d c IH]; intros doc' c' Hu; simpl in Hu |- *; [discriminate|].
  destruct (matches session_id d) eqn:E.
  - injection Hu as <- <-. split; [reflexivity|]. split; [eexists; split; reflexivity|].
    intros P Hall Hd. apply Forall_cons in Hall as [_ Hall].
    apply Forall_cons. split; assumption.
  - destruct (update_first session_id u c) as [[d1 c1]|]; [|discriminate].
    injection Hu as <- <-. destruct (IH d1 c1 eq_refl) as (Hids & Hdoc & Hall).
    split; [simpl; rewrite Hids; reflexivity|]. split; [exact Hdoc|].
    intros P HP Hd. apply Forall_cons in HP as [Hd0 HP].
    apply Forall_cons. split; [exact Hd0 | apply Hall; assumption].
Qed.

Lemma has_record_ids session_id c :
  has_record session_id c = true <-> session_id ∈ map doc_session_id c.
Proof.
  unfold has_record. induction c as [|d c IH]; simpl.
  - split; [discriminate | intros Hin; inversion Hin].
  - rewrite elem_of_cons, orb_true_iff, IH, matches_true.
    split; intros [Hx|Hx]; auto.
Qed.

Section Shape.
Variable reports : string -> collection -> bool.
#[local] Hint Extern 0 (Collection _) =>
  exact (mongo reports) : typeclass_instances.

(** The store after an increment: the first record of the session
    updated in place, or a new record at the end. *)
Lemma increment_store session_id now c :
  snd (increment_session_count session_id now c) =
    match update_first session_id
            {| inc_count := 1; set_on_insert_created_at := now; set_updated_at := now |} c
    with
    | Some (_, c') => c'
    | None =>
        c ++ [upserted session_id
                {| inc_count := 1; set_on_insert_created_at := now;
                   set_updated_at := now |}]
    end.
Proof.
  unfold increment_session_count. simpl. unfold coll_find_one_and_update.
  destruct (update_first session_id _ c) as [[d c']|];
    destruct (reports session_id c); reflexivity.
Qed.

(** What the store is after a call. *)
Lemma serve_store c db g :
  (serve c db g).1.2 = db
  \/ (exists req now, c = Activate req now
        /\ unseen (activate_session_id req) db
        /\ (serve c db g).1.2 = snd (activate req now db))
  \/ (exists req now, c = Read req now
        /\ stored_count (read_session_id req) db < 3
        /\ (serve c db g).1.2
           = snd (increment_session_count (read_session_id req) now db)).
Proof.
  destruct c as [req now|req now]; unfold serve.
  - pose proof (activate_mongo reports req now db) as Ha.
    destruct (has_record (activate_session_id req) db) eqn:Hr.
    + left. rewrite Ha. reflexivity.
    + right. left. exists req, now. split; [reflexivity|]. split; [exact Hr|].
      destruct (activate req now db) as [r db']. reflexivity.
  - destruct (Z.ltb_spec (stored_count (read_session_id req) db) 3) as [Hlt|Hge].
    + right. right. exists req, now. split; [reflexivity|]. split; [exact Hlt|].
      destruct (read_cards_serves reports req now db g Hlt) as (d & g' & ->).
      reflexivity.
    + left. rewrite (read_cards_warning reports req now db g Hge). reflexivity.
Qed.

(** A property of the store kept by the insert of an activation and by
    the increment of a reading below the quota is kept by every run. *)
Lemma run_invariant (Inv : collection -> Prop) :
  (forall req now db,
      unseen (activate_session_id req) db -> Inv db ->
      Inv (snd (activate req now db))) ->
  (forall session_id now db,
      stored_count session_id db < 3 -> Inv db ->
      Inv (snd (increment_session_count session_id now db))) ->
  forall cs db g, Inv db -> Inv (store_of (run cs db g)).
Proof.
  intros Hact Hinc. unfold store_of.
  induction cs as [|c cs IH]; intros db g Hdb; [exact Hdb|].
  cbn [run].
  pose proof (serve_store c db g) as Hs.
  destruct (serve c db g) as [[r db1] g1]. simpl in Hs.
  assert (Inv db1) as Hdb1.
  { destruct Hs as [Hs|[(req & now & _ & Hu & Hs)|(req & now & _ & Hlt & Hs)]];
      rewrite Hs; [exact Hdb | apply Hact; assumption | apply Hinc; assumption]. }
  specialize (IH db1 g1 Hdb1).
  destruct (run cs db1 g1) as [[rs db2] g2]. exact IH.
Qed.

Lemma activate_ids req now (db : collection) :
  map doc_session_id (snd (activate req now db))
  = map doc_session_id db
    ++ (if has_record (activate_session_id req) db then []
        else [activate_session_id req]).
Proof.
  rewrite activate_mongo. simpl.
  destruct (has_record (activate_session_id req) db).
  - rewrite app_nil_r. reflexivity.
  - rewrite map_app. reflexivity.
Qed.

Lemma increment_ids session_id now (db : collection) :
  map doc_session_id (snd (increment_session_count session_id now db))
  = map doc_session_id db
    ++ (if has_record session_id db then [] else [session_id]).
Proof.
  rewrite increment_store.
  destruct (update_first session_id _ db) as [[d c']|] eqn:Hu.
  - destruct (update_first_shape _ _ _ _ _ Hu) as (Hids & (doc & Hf & _) & _).
    rewrite Hids.
    assert (has_record session_id db = true) as ->
      by (apply has_record_find_one; eexists; exact Hf).
    rewrite app_nil_r. reflexivity.
  - assert (has_record session_id db = false) as ->.
    { destruct (has_record session_id db) eqn:Hr; [|reflexivity].
      apply has_record_find_one in Hr as [doc Hf].
      destruct (update_first_Some session_id
                  {| inc_count := 1; set_on_insert_created_at := now;
                     set_updated_at := now |} db doc Hf) as (c' & Hu' & _).
      rewrite Hu' in Hu. discriminate. }
    rewrite map_app. reflexivity.
Qed.

Lemma serve_ids c (db : collection) g :
  exists added,
    map doc_session_id (serve c db g).1.2 = map doc_session_id db ++ added
    /\ (length added <= 1)%nat
    /\ (forall x, x ∈ added -> x = call_session c /\ unseen x db).
Proof.
  pose proof (serve_store c db g) as Hs. revert Hs.
  generalize ((serve c db g).1.2). intros st Hs.
  destruct Hs as [Hs|[(req & now & -> & Hu & Hs)|(req & now & -> & Hlt & Hs)]];
    rewrite Hs; clear Hs st.
  - exists []. rewrite app_nil_r. split; [reflexivity|]. split; [simpl; lia|].
    intros x Hx. inversion Hx.
  - rewrite activate_ids. unfold unseen in Hu. rewrite Hu.
    eexists. split; [reflexivity|]. split; [simpl; lia|].
    intros x Hx. apply list_elem_of_singleton in Hx as ->. split; [reflexivity|exact Hu].
  - rewrite increment_ids.
    destruct (has_record (read_session_id req) db) eqn:Hr.
    + exists []. split; [reflexivity|]. split; [simpl; lia|].
      intros x Hx. inversion Hx.
    + eexists. split; [reflexivity|]. split; [simpl; lia|].
      intros x Hx. apply list_elem_of_singleton in Hx as ->. split; [reflexivity|exact Hr].
Qed.
End Shape.

(** ** What a run of calls keeps *)

Section Kept.
Variable reports : string -> collection -> bool.
#[local] Hint Extern 0 (Collection _) =>
  exact (mongo reports) : typeclass_instances.

Lemma serve_find_other c (db : collection) g other :
  call_session c <> other ->
  coll_find_one other (serve c db g).1.2 = coll_find_one other db.
Proof.
  intros Hne. pose proof (serve_store reports c db g) as Hs. revert Hs.
  generalize ((serve c db g).1.2). intros st Hs.
  destruct Hs as [Hs|[(req & now & -> & Hu & Hs)|(req & now & -> & Hlt & Hs)]];
    rewrite Hs; clear Hs st; simpl in Hne.
  - reflexivity.
  - rewrite activate_mongo. simpl. unfold unseen in Hu. rewrite Hu.
    rewrite find_one_app.
    assert (matches other
              {| doc_session_id := activate_session_id req; doc_count := Some 0;
                 doc_created_at := Some now; doc_updated_at := Some now |} = false)
      as -> by (apply matches_false; exact Hne).
    destruct (coll_find_one other db); reflexivity.
  - destruct (increment_session_count_mongo reports (read_session_id req) now db)
      as (c' & -> & _ & Ho).
    simpl. apply Ho. congruence.
Qed.

(** X1: a run in which no call is made for a session leaves the record
    of that session exactly as it was. *)
Theorem run_isolation other cs (db : collection) g :
  Forall (fun c => call_session c <> other) cs ->
  coll_find_one other (store_of (run cs db g)) = coll_find_one other db.
Proof.
  unfold store_of. revert db g.
  induction cs as [|c cs IH]; intros db g Hall; [reflexivity|].
  apply Forall_cons in Hall as [Hc Hall]. cbn [run].
  pose proof (serve_find_other c db g other Hc) as Hstep.
  destruct (serve c db g) as [[r db1] g1]. simpl in Hstep.
  specialize (IH db1 g1 Hall).
  destruct (run cs db1 g1) as [[rs db2] g2]. simpl in IH |- *.
  rewrite IH. exact Hstep.
Qed.

(** X2: over a run the identifiers of the records are only appended to:
    no record is removed, moved or renamed, a call adds at most one
    record, and a record is only ever added for the session of a call. *)
Theorem run_ids_appended cs (db : collection) g :
  exists added,
    map doc_session_id (store_of (run cs db g)) = map doc_session_id db ++ added
    /\ (length added <= length cs)%nat
    /\ (forall x, x ∈ added -> x ∈ map call_session cs).
Proof.
  unfold store_of. revert db g.
  induction cs as [|c cs IH]; intros db g.
  - exists []. simpl. rewrite app_nil_r. split; [reflexivity|]. split; [lia|].
    intros x Hx. inversion Hx.
  - cbn [run].
    destruct (serve_ids reports c db g) as (a1 & Hids1 & Hlen1 & Hin1).
    destruct (serve c db g) as [[r db1] g1]. simpl in Hids1.
    destruct (IH db1 g1) as (a2 & Hids2 & Hlen2 & Hin2).
    destruct (run cs db1 g1) as [[rs db2] g2]. simpl in Hids2 |- *.
    exists (a1 ++ a2). rewrite Hids2, Hids1, app_assoc.
    split; [reflexivity|]. split; [rewrite length_app; lia|].
    intros x Hx. apply elem_of_app in Hx as [Hx|Hx].
    + apply elem_of_cons. left. apply (Hin1 x Hx).
    + apply elem_of_cons. right. apply (Hin2 x Hx).
Qed.

(** X3: served one after the other, the calls never give a session a
    second record: a store with one record per identifier stays so. *)
Theorem run_one_record_per_session cs (db : collection) g :
  NoDup (map doc_session_id db) ->
  NoDup (map doc_session_id (store_of (run cs db g))).
Proof.
  apply (run_invariant reports (fun c => NoDup (map doc_session_id c))).
  - intros req now c Hu Hnd. rewrite activate_ids.
    unfold unseen in Hu. rewrite Hu.
    apply NoDup_app. split; [exact Hnd|]. split; [|apply NoDup_singleton].
    intros x Hx Hin. apply list_elem_of_singleton in Hin as ->.
    apply has_record_ids in Hx. congruence.
  - intros session_id now c _ Hnd. rewrite increment_ids.
    destruct (has_record session_id c) eqn:Hr.
    + rewrite app_nil_r. exact Hnd.
    + apply NoDup_app. split; [exact Hnd|]. split; [|apply NoDup_singleton].
      intros x Hx Hin. apply list_elem_of_singleton in Hin as ->.
      apply has_record_ids in Hx. congruence.
Qed.

Lemma well_formed_incremented u doc :
  well_formed doc = true -> get_count 0 doc < 3 -> inc_count u = 1 ->
  well_formed (apply_update u doc) = true.
Proof.
  destruct doc as [id [n|] [created|] [updated|]];
    unfold well_formed, get_count, apply_update; simpl;
    intros Hwf Hlt Hu; try discriminate.
  rewrite Hu. unfold get_count. simpl. apply andb_true_iff in Hwf as [H0 H3].
  apply Z.leb_le in H0, H3. apply andb_true_iff. split; apply Z.leb_le; lia.
Qed.

(** X4: served one after the other, the calls keep every record well
    formed: a count from 0 to 3 and both timestamps present. *)
Theorem run_well_formed cs (db : collection) g :
  forallb well_formed db = true ->
  forallb well_formed (store_of (run cs db g)) = true.
Proof.
  rewrite !forallb_forall, <- !List.Forall_forall.
  apply (run_invariant reports (fun c => Forall (fun d => well_formed d = true) c)).
  - intros req now c Hu Hwf. rewrite activate_mongo. simpl.
    unfold unseen in Hu. rewrite Hu.
    apply Forall_app. split; [exact Hwf|]. apply Forall_singleton. reflexivity.
  - intros session_id now c Hlt Hwf. rewrite increment_store.
    destruct (update_first session_id _ c) as [[d c']|] eqn:Hu.
    + destruct (update_first_shape _ _ _ _ _ Hu) as (_ & (doc & Hf & ->) & Hall).
      apply Hall; [exact Hwf|].
      apply well_formed_incremented; [| |reflexivity].
      * rewrite Forall_forall in Hwf. apply Hwf.
        apply find_some in Hf as [Hin _]. apply list_elem_of_In. exact Hin.
      * unfold stored_count in Hlt. rewrite Hf in Hlt. exact Hlt.
    + apply Forall_app. split; [exact Hwf|]. apply Forall_singleton. reflexivity.
Qed.

(** X5: the increment of a session that has a record rewrites that
    record in place: the count grows by one, [updated_at] becomes the
    time of the call, [created_at] and the identifier are kept, and the
    store keeps its length. *)
Theorem increment_updates_record session_id now (db : collection) doc :
  coll_find_one session_id db = Some doc ->
  coll_find_one session_id (snd (increment_session_count session_id now db))
  = Some {| doc_session_id := doc_session_id doc;
            doc_count := Some (get_count 0 doc + 1);
            doc_created_at := doc_created_at doc;
            doc_updated_at := Some now |}
  /\ length (snd (increment_session_count session_id now db)) = length db.
Proof.
  intros Hf. rewrite increment_store.
  destruct (update_first_Some session_id
              {| inc_count := 1; set_on_insert_created_at := now;
                 set_updated_at := now |} db doc Hf) as (c' & Hu & Hs & _).
  rewrite Hu. split; [exact Hs|].
  destruct (update_first_shape _ _ _ _ _ Hu) as (Hids & _).
  rewrite <- (length_map doc_session_id c'), Hids, length_map. reflexivity.
Qed.
End Kept.

(** ** Readings served and the count *)

Section Accounting.
Variable reports : string -> collection -> bool.
#[local] Hint Extern 0 (Collection _) =>
  exact (mongo reports) : typeclass_instances.

Lemma read_cards_object req now (db : collection) g :
  is_object (read_cards req now db g).1.1
  = (stored_count (read_session_id req) db <? 3).
Proof.
  destruct (Z.ltb_spec (stored_count (read_session_id req) db) 3) as [Hlt|Hge].
  - destruct (read_cards_serves reports req now db g Hlt) as (d & g' & ->).
    reflexivity.
  - rewrite (read_cards_warning reports req now db g Hge). reflexivity.
Qed.

Lemma read_cards_not_sealed req now (db : collection) g :
  (read_cards req now db g).1.1 <> Some (RList [alert FINAL_BLOCK]).
Proof.
  destruct (Z.ltb_spec (stored_count (read_session_id req) db) 3) as [Hlt|Hge].
  - destruct (read_cards_serves reports req now db g Hlt) as (d & g' & ->).
    simpl. discriminate.
  - rewrite (read_cards_warning reports req now db g Hge). simpl.
    intros Heq. vm_compute in Heq. discriminate Heq.
Qed.

(** X6: over a run of calls served one after the other, the count of a
    session grows by exactly the number of its reading requests answered
    by a reading; from a count of at most 3, that number is at most what
    is left of the quota. *)
Theorem run_count_is_readings_served session_id cs (db : collection) g :
  stored_count session_id (store_of (run cs db g))
  = stored_count session_id db
    + Z.of_nat (readings_served session_id cs (run cs db g).1.1)
  /\ (stored_count session_id db <= 3 ->
      Z.of_nat (readings_served session_id cs (run cs db g).1.1)
      <= 3 - stored_count session_id db).
Proof.
  assert (stored_count session_id (store_of (run cs db g))
          = stored_count session_id db
            + Z.of_nat (readings_served session_id cs (run cs db g).1.1)) as Heq.
  { unfold store_of. revert db g.
    induction cs as [|c cs IH]; intros db g; [simpl; lia|].
    cbn [run].
    pose proof (serve_count reports c db g session_id) as Hstep.
    assert (match c with
            | Read req _ =>
                is_object (serve c db g).1.1
                = (stored_count (read_session_id req) db <? 3)
            | Activate _ _ => True
            end) as Hobj
      by (destruct c as [req now|req now]; [exact I | apply read_cards_object]).
    destruct (serve c db g) as [[r db1] g1]. simpl in Hstep, Hobj.
    specialize (IH db1 g1).
    destruct (run cs db1 g1) as [[rs db2] g2]. simpl in IH |- *.
    rewrite IH, Hstep. destruct c as [req now|req now]; [lia|].
    rewrite Hobj.
    destruct (bool_decide_reflect (read_session_id req = session_id)) as [->|Hne];
      simpl; [|lia].
    destruct (stored_count session_id db <? 3); simpl; lia. }
  split; [exact Heq|].
  intros Hq. pose proof (proj2 (run_count reports cs db g session_id) Hq). lia.
Qed.

(** X7: served one after the other, no call is ever answered by the
    sealed message. *)
Theorem run_never_sealed cs (db : collection) g :
  Some (RList [alert FINAL_BLOCK]) ∉ (run cs db g).1.1.
Proof.
  revert db g. induction cs as [|c cs IH]; intros db g Hin.
  - simpl in Hin. inversion Hin.
  - cbn [run] in Hin.
    assert ((serve c db g).1.1 <> Some (RList [alert FINAL_BLOCK])) as Hc.
    { destruct c as [req now|req now]; unfold serve.
      - destruct (activate req now db) as [r db']. simpl. discriminate.
      - apply read_cards_not_sealed. }
    specialize (IH (serve c db g).1.2 (serve c db g).2).
    destruct (serve c db g) as [[r db1] g1]. simpl in Hc, IH.
    destruct (run cs db1 g1) as [[rs db2] g2]. simpl in Hin, IH.
    apply elem_of_cons in Hin as [Hin|Hin]; [congruence | exact (IH Hin)].
Qed.
End Accounting.

(** ** The driver *)

Lemma increment_driver reports session_id now (db : collection) :
  @increment_session_count _ (mongo reports) session_id now db
  = @increment_session_count _ (mongo always) session_id now db.
Proof.
  apply injective_projections.
  - destruct (increment_session_count_mongo reports session_id now db) as (c1 & -> & _).
    destruct (increment_session_count_mongo always session_id now db) as (c2 & -> & _).
    reflexivity.
  - rewrite (increment_store reports), (increment_store always). reflexivity.
Qed.

Lemma serve_driver reports c (db : collection) g :
  @serve _ (mongo reports) c db g = @serve _ (mongo always) c db g.
Proof.
  destruct c as [req now|req now]; unfold serve.
  - rewrite (activate_mongo reports), (activate_mongo always). reflexivity.
  - unfold read_cards. rewrite (get_session_count_mongo reports),
      (get_session_count_mongo always).
    unfold read_cards_from. rewrite (increment_driver reports). reflexivity.
Qed.

(** X8: whether or not the driver hands back the updated document, the
    increment returns the same count and leaves the same store, and so
    does every run of calls: the fallback read hides the difference. *)
Theorem driver_makes_no_difference reports :
  (forall session_id now (db : collection),
      @increment_session_count _ (mongo reports) session_id now db
      = @increment_session_count _ (mongo always) session_id now db)
  /\ (forall cs (db : collection) g,
        @run _ (mongo reports) cs db g = @run _ (mongo always) cs db g).
Proof.
  split; [apply increment_driver|].
  induction cs as [|c cs IH]; intros db g; [reflexivity|].
  cbn [run]. rewrite (serve_driver reports).
  destruct (@serve _ (mongo always) c db g) as [[r db1] g1].
  rewrite IH. reflexivity.
Qed.

(** ** Requests served next to each other *)


(** ** The text of a reading of any number of cards *)

Lemma concat_card_lines (rest : list string) :
  rest <> [] ->
  forall cards idx,
    String.concat nl
      (map (fun '(i, c) => card_line i c) (enumerate idx cards) ++ rest)
    = card_block idx cards +:+ String.concat nl rest.
Proof.
  intros Hrest. induction cards as [|c cards IH]; intros idx; [reflexivity|].
  cbn [enumerate map app card_block].
  specialize (IH (S idx)).
  destruct (map (fun '(i, c0) => card_line i c0) (enumerate (S idx) cards) ++ rest)
    as [|x xs] eqn:E.
  - apply app_eq_nil in E as [_ E]. contradiction.
  - cbn [String.concat]. cbn [String.concat] in IH. rewrite IH.
    rewrite !append_assoc. reflexivity.
Qed.

(** X10: for a list of cards of any length, the empty one included,
    [build_reading] answers the four fields with the cards as they were
    given; the text is the address line with the preamble, an empty line,
    one line per card numbered from 1 in the order given, an empty line,
    the teaser, an empty line and the closing line. *)
Theorem build_reading_any_cards (cards : list card) (g : rng) :
  exists addressed hook g',
    addressed ∈ address_forms /\ hook ∈ hooks
    /\ build_reading cards g
       = (Some [("cards", VCards cards);
                ("message",
                 VStr (addressed +:+ ", hear me: " +:+ preamble +:+ nl +:+
                       card_block 1 cards +:+ nl +:+
                       hint +:+ nl +:+ nl +:+ hook));
                ("cta", VStr CTA); ("cta_sub", VStr CTA_SUB)], g').
Proof.
  destruct (build_reading_spec cards g) as (addressed & hook & g' & Ha & Hh & ->).
  exists addressed, hook, g'. split; [exact Ha|]. split; [exact Hh|].
  unfold reading_payload, narrative, join. cbn [app].
  replace (String.concat nl
             ((addressed +:+ ", hear me: " +:+ preamble)
              :: map (fun '(idx, c) => card_line idx c) (enumerate 1 cards)
                 ++ [nl +:+ hint; nl +:+ hook]))
    with ((addressed +:+ ", hear me: " +:+ preamble) +:+ nl +:+
          String.concat nl
            (map (fun '(idx, c) => card_line idx c) (enumerate 1 cards)
             ++ [nl +:+ hint; nl +:+ hook])).
  - rewrite (concat_card_lines [nl +:+ hint; nl +:+ hook] ltac:(discriminate)).
    cbn [String.concat]. rewrite !append_assoc. reflexivity.
  - cbn [String.concat].
    destruct (map (fun '(idx, c) => card_line idx c) (enumerate 1 cards)
              ++ [nl +:+ hint; nl +:+ hook]) as [|x xs] eqn:E; [|reflexivity].
    apply app_eq_nil in E as [_ E]. discriminate E.
Qed.

(** ** The diagnostic endpoint *)

(** X11: the fields [database_url] and [database_name] of the diagnostic
    answer tell only whether the two variables of the environment are set
    to a non-empty value; what the handler wrote there while looking at
    [db], the name of the database included, never reaches the answer. *)
Theorem test_database_environment db env :
  database_url (test_database db env)
  = Some (if truthy (DATABASE_URL env) then "✅ Set" else "❌ Not Set")
  /\ database_name (test_database db env)
     = Some (if truthy (DATABASE_NAME env) then "✅ Set" else "❌ Not Set")
  /\ (forall db', database_url (test_database db' env)
                  = database_url (test_database db env)
                  /\ database_name (test_database db' env)
                     = database_name (test_database db env)).
Proof.
  assert (forall d, database_url (test_database d env)
                    = Some (if truthy (DATABASE_URL env) then "✅ Set" else "❌ Not Set")
                    /\ database_name (test_database d env)
                       = Some (if truthy (DATABASE_NAME env)
                               then "✅ Set" else "❌ Not Set")) as Hgen.
  { intros d. unfold test_database.
    destruct (test_database_try d _) as [r|[r e]]; split; reflexivity. }
  destruct (Hgen db) as [Hu Hn]. split; [exact Hu|]. split; [exact Hn|].
  intros db'. destruct (Hgen db') as [Hu' Hn']. rewrite Hu, Hn, Hu', Hn'. auto.
Qed.

(** X12: the diagnostic answer lists at most ten collections, the first
    ones of the listing in its order; a listing of at most ten names is
    given in full, and nothing is listed when [db] is [None], when
    reading its name fails or when the listing is refused. *)
Theorem test_database_collections db env :
  (length (collections (test_database db env)) <= 10)%nat
  /\ (forall d names,
        db = Some d -> (forall e, db_name d <> Failing e) ->
        list_collection_names d = Listed names ->
        collections (test_database db env) = take 10 names
        /\ ((length names <= 10)%nat -> collections (test_database db env) = names))
  /\ ((db = None
       \/ (exists d e, db = Some d /\ db_name d = Failing e)
       \/ (exists d e, db = Some d /\ list_collection_names d = Refused e)) ->
      collections (test_database db env) = []).
Proof.
  unfold test_database, test_database_try.
  destruct db as [[attr lst]|]; simpl.
  - destruct attr as [|v|e]; destruct lst as [names|e']; simpl;
      (split; [rewrite ?length_take; lia|]); split;
      try (intros d names' [= <-] Hok [= <-]; simpl;
           split; [reflexivity | intros Hlen; apply take_ge; exact Hlen]);
      try (intros d names' [= <-] Hok Hl; simpl in *;
           first [discriminate Hl | exfalso; eapply Hok; reflexivity]);
      try (intros [Hn|[(d & e0 & [= <-] & Hf)|(d & e0 & [= <-] & Hr)]];
           simpl in *; first [discriminate | reflexivity]).
  - split; [lia|]. split; [intros d names Hd; discriminate Hd | reflexivity].
Qed.

(** X13: a failure met while looking at [db] is reported, not raised:
    when the listing is refused the answer still says [Connected] and
    shows the first fifty characters of the message; when reading the
    name fails the answer says [Not Connected] and shows the first fifty
    characters of that message.  No message is ever shown longer. *)
Theorem test_database_failures db env :
  (forall d e,
      db = Some d -> (forall e', db_name d <> Failing e') ->
      list_collection_names d = Refused e ->
      database_field (test_database db env)
      = Fmt "⚠️  Connected but Error: " (take 50 e)
      /\ connection_status (test_database db env) = "Connected")
  /\ (forall d e,
        db = Some d -> db_name d = Failing e ->
        database_field (test_database db env) = Fmt "❌ Error: " (take 50 e)
        /\ connection_status (test_database db env) = "Not Connected")
  /\ (forall s shown,
        database_field (test_database db env) = Fmt s shown ->
        (length shown <= 50)%nat).
Proof.
  unfold test_database, test_database_try.
  destruct db as [[attr lst]|]; simpl.
  - destruct attr as [|v|e]; destruct lst as [names|e']; simpl;
      (split; [intros d e0 [= <-] Hok Hl; simpl in *;
               first [discriminate Hl
                     | injection Hl as <-; split; reflexivity
                     | exfalso; eapply Hok; reflexivity]|]);
      (split; [intros d e0 [= <-] Hf; simpl in *;
               first [discriminate Hf | injection Hf as <-; split; reflexivity]|]);
      intros s shown Hs;
      first [discriminate Hs | injection Hs as _ <-; rewrite length_take; lia].
  - split; [intros d e Hd; discriminate Hd|].
    split; [intros d e Hd; discriminate Hd|].
    intros s shown Hs. discriminate Hs.
Qed.

Lemma run_isolation_witness :
  coll_find_one "s-2"
    (store_of (@run _ (mongo always)
                 [Activate {| activate_session_id := "s-1" |} 20;
                  Read {| read_session_id := "s-1" |} 21;
                  Read {| read_session_id := "s-3" |} 22]
                 [{| doc_session_id := "s-2"; doc_count := Some 2;
                     doc_created_at := Some 10; doc_updated_at := Some 12 |}]
                 [5; 3; 0; 1; 1]%nat))
  = Some {| doc_session_id := "s-2"; doc_count := Some 2;
            doc_created_at := Some 10; doc_updated_at := Some 12 |}.
Proof.
  apply (run_isolation always "s-2").
  repeat constructor; discriminate.
Defined.

Lemma run_one_record_per_session_witness :
  NoDup (map doc_session_id
           (store_of (@run _ (mongo always)
                        [Activate {| activate_session_id := "s-1" |} 20;
                         Read {| read_session_id := "s-1" |} 21;
                         Activate {| activate_session_id := "s-1" |} 22;
                         Read {| read_session_id := "s-2" |} 23]
                        [] [5; 3; 0; 1; 1]%nat))).
Proof.
  apply (run_one_record_per_session always). constructor.
Defined.

Lemma run_well_formed_witness :
  forallb well_formed
    (store_of (@run _ (mongo never)
                 [Read {| read_session_id := "s-1" |} 21;
                  Read {| read_session_id := "s-1" |} 22;
                  Read {| read_session_id := "s-1" |} 23;
                  Read {| read_session_id := "s-1" |} 24;
                  Activate {| activate_session_id := "s-2" |} 25]
                 [] [5; 3; 0; 1; 1]%nat)) = true.
Proof.
  apply (run_well_formed never). reflexivity.
Defined.

Lemma increment_updates_record_witness :
  coll_find_one "s-1"
    (snd (@increment_session_count _ (mongo always) "s-1" 30
            [{| doc_session_id := "s-1"; doc_count := Some 0;
                doc_created_at := Some 10; doc_updated_at := Some 10 |}]))
  = Some {| doc_session_id := "s-1"; doc_count := Some 1;
            doc_created_at := Some 10; doc_updated_at := Some 30 |}.
Proof.
  apply (proj1 (increment_updates_record always "s-1" 30
                  [{| doc_session_id := "s-1"; doc_count := Some 0;
                      doc_created_at := Some 10; doc_updated_at := Some 10 |}]
                  {| doc_session_id := "s-1"; doc_count := Some 0;
                     doc_created_at := Some 10; doc_updated_at := Some 10 |}
                  eq_refl)).
Defined.

Lemma run_count_is_readings_served_witness :
  Z.of_nat (readings_served "s-1"
              [Read {| read_session_id := "s-1" |} 21;
               Read {| read_session_id := "s-2" |} 22;
               Read {| read_session_id := "s-1" |} 23;
               Read {| read_session_id := "s-1" |} 24]
              (@run _ (mongo always)
                 [Read {| read_session_id := "s-1" |} 21;
                  Read {| read_session_id := "s-2" |} 22;
                  Read {| read_session_id := "s-1" |} 23;
                  Read {| read_session_id := "s-1" |} 24]
                 [{| doc_session_id := "s-1"; doc_count := Some 2;
                     doc_created_at := Some 10; doc_updated_at := Some 12 |}]
                 [5; 3; 0; 1; 1]%nat).1.1)
  <= 3 - stored_count "s-1"
         [{| doc_session_id := "s-1"; doc_count := Some 2;
             doc_created_at := Some 10; doc_updated_at := Some 12 |}].
Proof.
  apply (proj2 (run_count_is_readings_served always "s-1" _ _ _)).
  vm_compute. discriminate.
Defined.

Lemma test_database_collections_witness :
  collections
    (test_database
       (Some {| db_name := Present "oracle";
                list_collection_names :=
                  Listed ["a"; "b"; "c"; "d"; "e"; "f"; "g"; "h"; "i"; "j"; "k"; "l"] |})
       {| DATABASE_URL := Some ""; DATABASE_NAME := None |})
  = ["a"; "b"; "c"; "d"; "e"; "f"; "g"; "h"; "i"; "j"].
Proof.
  pose proof (test_database_collections
                (Some {| db_name := Present "oracle";
                         list_collection_names :=
                           Listed ["a"; "b"; "c"; "d"; "e"; "f"; "g"; "h";
                                   "i"; "j"; "k"; "l"] |})
                {| DATABASE_URL := Some ""; DATABASE_NAME := None |})
    as (_ & Hlisted & _).
  destruct (Hlisted _ ["a"; "b"; "c"; "d"; "e"; "f"; "g"; "h"; "i"; "j"; "k"; "l"]
              eq_refl) as [Htake _];
    [intros e; discriminate | reflexivity | exact Htake].
Defined.

Lemma test_database_failures_witness :
  database_field
    (test_database
       (Some {| db_name := Absent; list_collection_names := Refused [110; 111]%N |})
       {| DATABASE_URL := None; DATABASE_NAME := Some "oracle" |})
  = Fmt "⚠️  Connected but Error: " [110; 111]%N
  /\ connection_status
       (test_database
          (Some {| db_name := Absent; list_collection_names := Refused [110; 111]%N |})
          {| DATABASE_URL := None; DATABASE_NAME := Some "oracle" |})
     = "Connected".
Proof.
  pose proof (test_database_failures
                (Some {| db_name := Absent;
                         list_collection_names := Refused [110; 111]%N |})
                {| DATABASE_URL := None; DATABASE_NAME := Some "oracle" |})
    as (Hrefused & _).
  apply (Hrefused _ [110; 111]%N eq_refl); [intros e; discriminate | reflexivity].
Defined.
